(** * The TaskWarrior adapter of twgs ([twgs/taskwarrior.py])

    A shallow embedding of [TaskWarriorTask], [TaskWarriorTaskFactory] and
    [TaskWarriorTaskRepository], and the properties of their field mapping,
    association bookkeeping and persistence.

    Conventions.
    - A TaskWarrior record (the Python [dict] held in [_source]) is a finite
      map from field names to Python values, [gmap string value].
    - A method that only reads the record is a function of the record; a
      method that writes it is a computation in the state-and-exception monad
      [M record], whose final state is the record as the method leaves it,
      also when it raises.
    - A Python exception is a value of [exn]; a call that can raise returns
      [res].
    - The keys of a record are iterated in the order of [map_to_list]; Python
      fixes no order for a [dict] of this vintage, and no property below
      depends on it.
    - The local zone of the process, through which [strftime('%s')] and
      [fromtimestamp] go, is a [local_zone]: every definition that reads or
      writes a date takes it, and every property of them holds in every
      zone.
    - The base classes [twgs.Task] and [twgs.DownstreamTask] and the client
      library [taskw] are not among the sources. The four methods of the base
      class that the adapter calls are modelled from the specification and
      marked so; the client is a parameter of the repository. *)

From Stdlib Require Import ZArith String Ascii DecimalString DecimalZ DecimalPos.
From stdpp Require Import gmap strings list fin_maps.

#[local] Open Scope string_scope.

(** ** Python values, exceptions and the monad of a method body *)

Module Py.

(** The scalars a record holds: [None], a string or an integer. Python's
    [==] on them is decidable equality. *)
Inductive value : Type :=
| VNone
| VStr (s : string)
| VInt (z : Z).

#[global] Instance value_eq_dec : EqDecision value.
Proof. solve_decision. Defined.

Definition is_None (v : value) : bool :=
  match v with VNone => true | _ => false end.

Inductive exn : Type :=
| KeyError (what : string)
| ValueError (msg : string)
| TypeError (msg : string)
| Exception (msg : string).

Inductive res (A : Type) : Type :=
| Ok (a : A)
| Raise (e : exn).
Arguments Ok {A} a.
Arguments Raise {A} e.

#[global] Instance res_ret : MRet res := fun _ a => Ok a.
#[global] Instance res_bind : MBind res := fun _ _ f m =>
  match m with Ok a => f a | Raise e => Raise e end.

(** A computation over a mutable state [S] that may raise; the state
    survives the exception. *)
Definition M (S A : Type) : Type := S -> res A * S.

#[global] Instance M_ret {S} : MRet (M S) := fun _ a s => (Ok a, s).
#[global] Instance M_bind {S} : MBind (M S) := fun _ _ f m s =>
  match m s with
  | (Ok a, s') => f a s'
  | (Raise e, s') => (Raise e, s')
  end.

Definition raise {S A} (e : exn) : M S A := fun s => (Raise e, s).
Definition get {S} : M S S := fun s => (Ok s, s).
Definition modify {S} (f : S -> S) : M S unit := fun s => (Ok tt, f s).
Definition lift {S A} (x : res A) : M S A := fun s => (x, s).

(** The state a computation ends in. *)
Definition exec {S A} (m : M S A) (s : S) : S := (m s).2.

(** [dict[key]]: a missing key raises [KeyError(key)]. *)
Definition getitem (d : gmap string value) (key : string) : res value :=
  match d !! key with
  | Some v => Ok v
  | None => Raise (KeyError key)
  end.

(** [dict.get(key, None)]. *)
Definition get_or_None (d : gmap string value) (key : string) : value :=
  default VNone (d !! key).

(** *** Dictionaries as objects

    Where it matters which dictionary object is written, dictionaries live
    on a heap: an address is an index into it, and a wrapper is the address
    of its [_source]. *)
Definition addr : Type := nat.
Abbreviation heap := (list (gmap string value)).

(** A new dictionary object. *)
Definition alloc (d : gmap string value) : M heap addr :=
  fun h => (Ok (length h), (h ++ [d])%list).

(** The dictionary at an address. No reference of a running program
    dangles; a dangling one stops the computation. *)
Definition deref (a : addr) : M heap (gmap string value) :=
  fun h =>
    match h !! a with
    | Some d => (Ok d, h)
    | None => (Raise (Exception "dangling reference"), h)
    end.

(** A method of the wrapper at address [a], run in place. *)
Definition at_addr {A} (a : addr) (method : M (gmap string value) A) : M heap A :=
  fun h =>
    match h !! a with
    | Some d => let '(x, d') := method d in (x, <[a := d']> h)
    | None => (Raise (Exception "dangling reference"), h)
    end.

(** *** [datetime] and the local zone

    A [datetime] is the time on a wall clock: the year to the second, a
    microsecond, and for an aware value a zone. The fields to the second are
    kept as one number, the seconds on that wall clock since 1970-01-01
    00:00:00 (what [calendar.timegm] gives for them); [tzinfo] is [None] for
    a naive value and the offset from UTC, in seconds, for an aware one. *)
Record datetime : Type := Datetime {
  wall_second : Z;
  microsecond : N;
  tzinfo : option Z
}.

#[global] Instance datetime_eq_dec : EqDecision datetime.
Proof. solve_decision. Defined.

(** The local zone of the process, as the C library has it: [localtime]
    takes an epoch second to the wall clock, [mktime] takes a wall-clock
    time to an epoch second. [mktime] gives an answer for every wall-clock
    time, also for one that a change of the clock skips, and for one that
    occurs twice it gives one of its two epoch seconds; so the wall-clock
    time of an epoch second goes to an epoch second with that same
    wall-clock time, the one law a zone obeys. *)
Class local_zone : Type := LocalZone {
  localtime : Z -> Z;
  mktime : Z -> Z;
  localtime_mktime : forall n, localtime (mktime (localtime n)) = localtime n
}.

(** The years of [datetime]: 0001-01-01 00:00:00 to 9999-12-31 23:59:59. *)
Definition in_range (wall : Z) : bool :=
  (-62135596800 <=? wall)%Z && (wall <=? 253402300799)%Z.

(** [datetime.fromtimestamp(n)] for an integer [n]: the naive local time of
    the epoch second, or [ValueError] when its year is out of range. *)
Definition fromtimestamp {tz : local_zone} (n : Z) : res datetime :=
  let wall := localtime n in
  if in_range wall then Ok (Datetime wall 0 None)
  else Raise (ValueError "year is out of range").

(** [datetime.strftime(d, '%s')]: the epoch second the C library gives to
    the fields of [d], its microsecond and zone left aside, in decimal. *)
Definition strftime_s {tz : local_zone} (d : datetime) : string :=
  NilZero.string_of_int (Z.to_int (mktime (wall_second d))).

(** A datetime that comes back from its epoch second: naive, without a
    sub-second part, in range, and with a wall-clock time that the zone
    maps to an epoch second and back to itself. *)
Definition survives_epoch {tz : local_zone} (d : datetime) : bool :=
  bool_decide (tzinfo d = None)
  && (microsecond d =? 0)%N
  && in_range (wall_second d)
  && (localtime (mktime (wall_second d)) =? wall_second d)%Z.

(** UTC: the wall clock shows the epoch second. *)
Definition utc : local_zone := LocalZone (fun n => n) (fun w => w) (fun n => eq_refl).

(** US Eastern time through 2020: five hours behind UTC, four between
    2020-03-08 07:00:00 UTC and 2020-11-01 06:00:00 UTC. The wall clock
    skips 02:00-03:00 on 8 March, which [mktime] reads as standard time, and
    shows 01:00-02:00 twice on 1 November, which [mktime] reads as daylight
    saving time. *)
Definition eastern_2020 : local_zone.
Proof.
  refine (LocalZone
    (fun n => if (1583650800 <=? n)%Z && (n <? 1604210400)%Z
              then (n - 14400)%Z else (n - 18000)%Z)
    (fun w => if (w <? 1583636400)%Z then (w + 18000)%Z
              else if (w <? 1604196000)%Z then (w + 14400)%Z
              else (w + 18000)%Z)
    _).
  intros n.
  repeat (match goal with
          | |- context [(?a <=? ?b)%Z] => destruct (Z.leb_spec a b)
          | |- context [(?a <? ?b)%Z] => destruct (Z.ltb_spec a b)
          end; cbn [andb] in *); lia.
Defined.

(** *** [int(x)]

    Python 2's [int] on a string: surrounding whitespace is dropped, then an
    optional sign and a non-empty run of decimal digits are read. *)
Definition is_space (c : ascii) : bool :=
  let n := nat_of_ascii c in
  Nat.eqb n 32 || (Nat.leb 9 n && Nat.leb n 13).

Fixpoint lstrip (s : string) : string :=
  match s with
  | EmptyString => EmptyString
  | String c s' => if is_space c then lstrip s' else s
  end.

Fixpoint rstrip (s : string) : string :=
  match s with
  | EmptyString => EmptyString
  | String c s' =>
      match rstrip s' with
      | EmptyString => if is_space c then EmptyString else String c EmptyString
      | t => String c t
      end
  end.

Definition strip (s : string) : string := rstrip (lstrip s).

(** Every character of the string passes the test. *)
Fixpoint all_chars (p : ascii -> bool) (s : string) : bool :=
  match s with
  | EmptyString => true
  | String c s' => p c && all_chars p s'
  end.

(** Neither whitespace nor a plus sign: what a decimal rendering of an
    integer is made of. *)
Definition digit_or_minus (c : ascii) : bool :=
  negb (is_space c) && negb (Ascii.eqb c "+").

Definition int_of_literal (s : string) : option Z :=
  let literal := strip s in
  match literal with
  | EmptyString => None
  | String sign digits =>
      if Ascii.eqb sign "+" then Z.of_uint <$> NilZero.uint_of_string digits
      else Z.of_int <$> NilZero.int_of_string literal
  end.

Definition int (v : value) : res Z :=
  match v with
  | VInt z => Ok z
  | VStr s =>
      match int_of_literal s with
      | Some z => Ok z
      | None => Raise (ValueError "invalid literal for int() with base 10")
      end
  | VNone => Raise (TypeError "int() argument must be a string or a number")
  end.

End Py.
Import Py.

(** A TaskWarrior record. *)
Abbreviation record := (gmap string value).

(** ** The upstream task a wrapper is synchronised with

    The part of the generic task interface the adapter reads. [uid] and [etag]
    are opaque to the adapter and stored as they are; [project] and [subject]
    are strings or [None]; [due] and [completed] are datetimes or [None]. *)

Module Upstream.
Record Task : Type := {
  provider : string;
  uid : value;
  etag : value;
  project : option string;
  subject : option string;
  due : option datetime;
  completed : option datetime
}.
End Upstream.

(** ** [class TaskWarriorTask] *)

Module TaskWarriorTask.

Definition __UDA_NAMESPACE : string := "twgs".
Definition __UDA_ASSOCIATION : string := __UDA_NAMESPACE +:+ "_assoc".
Definition __UDA_ETAG : string := __UDA_NAMESPACE +:+ "_etag".

(** [stale]: lines 18-23. *)
Definition stale (other : Upstream.Task) (_source : record) : bool :=
  match _source !! __UDA_ETAG with
  | None => false
  | Some tag => bool_decide (tag <> Upstream.etag other)
  end.

(** [_association_key_for]: lines 101-103. *)
Definition _association_key_for (upstream : Upstream.Task) : string :=
  __UDA_ASSOCIATION +:+ "_" +:+ Upstream.provider upstream.

(** [is_associated_with]: lines 88-93. *)
Definition is_associated_with (other : Upstream.Task) (_source : record) : bool :=
  let association_key := _association_key_for other in
  match _source !! association_key with
  | Some v => bool_decide (v = Upstream.uid other)
  | None => false
  end.

(** [associate_with]: lines 95-99. *)
Definition associate_with (other : Upstream.Task) : M record unit :=
  let association_key := _association_key_for other in
  modify (<[association_key := Upstream.uid other]>);;
  modify (<[__UDA_ETAG := Upstream.etag other]>).

(** [__parse_date]: lines 105-108. *)
Definition __parse_date {tz : local_zone} (as_string : value)
    : res (option datetime) :=
  if is_None as_string then Ok None
  else n ← int as_string; d ← fromtimestamp n; Ok (Some d).

(** [__format_date]: lines 110-111. *)
Definition __format_date {tz : local_zone} (as_timestamp : datetime) : value :=
  VStr (strftime_s as_timestamp).

(** Modelled from the spec: [twgs.Task._set_or_delete], a method of the base
    class, whose source is not available. The field is cleared (the key
    removed) when the value is [None] and set otherwise, through the format
    callback when one is given. A field that holds a string as it is has
    [VStr] for its callback. *)
Definition _set_or_delete {A} (key : string) (v : option A)
    (fmt : A -> value) : M record unit :=
  match v with
  | None => modify (delete key)
  | Some a => modify (<[key := fmt a]>)
  end.

(** [copy_from]: lines 25-32. *)
Definition copy_from {tz : local_zone} (other : option Upstream.Task)
    : M record unit :=
  match other with
  | None => raise (ValueError "Cannot sync with nothing.")
  | Some other =>
      let dfmt := __format_date in
      _set_or_delete "project" (Upstream.project other) VStr;;
      _set_or_delete "description" (Upstream.subject other) VStr;;
      _set_or_delete "due" (Upstream.due other) dfmt;;
      _set_or_delete "end" (Upstream.completed other) dfmt
  end.

(** The accessors: lines 47-69. *)
Definition uid (_source : record) : value := get_or_None _source "uuid".
Definition status (_source : record) : res value := getitem _source "status".
Definition project (_source : record) : value := get_or_None _source "project".
Definition subject (_source : record) : res value := getitem _source "description".
Definition due {tz : local_zone} (_source : record) : res (option datetime) :=
  __parse_date (get_or_None _source "due").
Definition completed {tz : local_zone} (_source : record)
    : res (option datetime) :=
  __parse_date (get_or_None _source "end").

(** [annotations]: lines 71-78. *)
Definition annotations (_source : record) : record :=
  filter (fun kv => String.prefix "annotation_" kv.1 = true) _source.

(** [association]: lines 80-86. The value at the first key, in the
    iteration order of the record, that starts with the association
    prefix. *)
Definition association (_source : record) : value :=
  match List.find (fun kv => String.prefix __UDA_ASSOCIATION kv.1)
                  (map_to_list _source) with
  | Some (_, v) => v
  | None => VNone
  end.

(** Modelled from the spec: [twgs.Task.is_pending], a property of the base
    class, whose source is not available: the status of the task is
    [pending]. *)
Definition is_pending (_source : record) : res bool :=
  s ← status _source; Ok (bool_decide (s = VStr "pending")).

(** Modelled from the spec: [twgs.Task.is_completed], a property of the base
    class, whose source is not available: the task is completed locally, its
    status is [completed]. *)
Definition is_completed (_source : record) : res bool :=
  s ← status _source; Ok (bool_decide (s = VStr "completed")).

(** Modelled from the spec: [twgs.Task.is_deleted], a property of the base
    class, whose source is not available: the task is marked deleted, its
    status is [deleted]. *)
Definition is_deleted (_source : record) : res bool :=
  s ← status _source; Ok (bool_decide (s = VStr "deleted")).

(** [should_sync]: lines 34-45. [or] and [and] evaluate their right operand
    only when the left one does not decide. *)
Definition should_sync (_source : record) : res bool :=
  s ← status _source;
  skip ← (if bool_decide (s = VStr "recurring") then Ok true
          else is_deleted _source);
  if skip : bool then Ok false
  else
    done_locally ← (c ← is_completed _source;
                    if c : bool then Ok (is_None (association _source))
                    else Ok false);
    if done_locally : bool then Ok false
    else Ok true.

End TaskWarriorTask.

(** ** [class TaskWarriorTaskFactory]

    The factory is where a caller's dictionary and the wrapper's own must not
    be the same object, so it runs on the heap of dictionaries. *)

Module TaskWarriorTaskFactory.

(** The keyword arguments [create_from] looks at: [map], a dictionary, and
    [other], an upstream task or [None]. [None] for a field means that the
    keyword is not passed. *)
Record kwargs : Type := {
  kw_map : option addr;
  kw_other : option (option Upstream.Task)
}.

(** [create_from]: lines 114-124. *)
Definition create_from {tz : local_zone} (kw : kwargs) : M heap addr :=
  match kw_map kw with
  | Some map =>
      d ← deref map;
      alloc d                                   (* kwargs['map'].copy() *)
  | None =>
      match kw_other kw with
      | Some other =>
          task ← alloc {["status" := VStr "pending"]};
          at_addr task (TaskWarriorTask.copy_from other);;
          mret task
      | None =>
          raise (KeyError "Either a map or task argument must be provided.")
      end
  end.

End TaskWarriorTaskFactory.

(** ** [class TaskWarriorTaskRepository]

    The TaskWarrior client [taskw] is outside the repository: the database is
    any state [Store] with the three operations [save] calls. An operation
    returns what the client returns, or raises. [task_update] is handed the
    wrapper's own dictionary, which the client may change in place: it also
    returns that dictionary as it leaves it. *)

Module TaskWarriorTaskRepository.

Inductive store_call : Type :=
| Call_task_add (fields : record)
| Call_task_update (task : record)
| Call_task_done (keys : record).

Inductive log_entry : Type :=
| Marking_as_complete (task : record).

Section Repository.
Context {Store : Type} {tz : local_zone}.
Variable task_add : record -> Store -> res record * Store.
Variable task_update : record -> Store -> res unit * record * Store.
Variable task_done : record -> Store -> res record * Store.

(** What a call of [save] works on: the [_source] of the task, the
    database, and the calls and log entries issued so far. *)
Record state : Type := State {
  _source : record;
  _db : Store;
  calls : list store_call;
  log : list log_entry
}.

Definition set_source (r : record) : M state unit :=
  modify (fun st => State r (_db st) (calls st) (log st)).

Definition db_task_add (fields : record) : M state record :=
  fun st =>
    let '(x, db') := task_add fields (_db st) in
    (x, State (_source st) db' (calls st ++ [Call_task_add fields])%list (log st)).

Definition db_task_update : M state unit :=
  fun st =>
    let '(x, task', db') := task_update (_source st) (_db st) in
    (x, State task' db' (calls st ++ [Call_task_update (_source st)])%list (log st)).

Definition db_task_done (keys : record) : M state record :=
  fun st =>
    let '(x, db') := task_done keys (_db st) in
    (x, State (_source st) db' (calls st ++ [Call_task_done keys])%list (log st)).

Definition log_info (e : log_entry) : M state unit :=
  modify (fun st => State (_source st) (_db st) (calls st) (log st ++ [e])%list).

(** [save], lines 140-143: create or update. *)
Definition save_create_or_update : M state unit :=
  st ← get;
  if is_None (TaskWarriorTask.uid (_source st)) then
    r ← db_task_add (_source st);
    set_source r
  else
    db_task_update.

(** The dictionary comprehension of lines 147-149. *)
Definition completion_keys (src : record) : record :=
  filter (fun kv => kv.1 = "uuid" \/ kv.1 = "end") src.

(** [save], lines 145-150: the completion transition. *)
Definition save_mark_complete : M state unit :=
  st ← get;
  pending ← lift (TaskWarriorTask.is_pending (_source st));
  if pending : bool then
    c ← lift (TaskWarriorTask.completed (_source st));
    match c with
    | Some _ =>
        log_info (Marking_as_complete (_source st));;
        r ← db_task_done (completion_keys (_source st));
        set_source r
    | None => mret tt
    end
  else mret tt.

(** [save]: lines 139-150. *)
Definition save : M state unit :=
  save_create_or_update;;
  save_mark_complete.

End Repository.

(** A list comprehension [[f(t) for t in l]]: the elements in order, and
    the first exception ends it. *)
Fixpoint for_each {S A B} (f : A -> M S B) (l : list A) : M S (list B) :=
  match l with
  | [] => mret []
  | a :: l' => b ← f a; bs ← for_each f l'; mret (b :: bs)
  end.

(** A computation on the heap, beside a second piece of state. *)
Definition on_heap {S A} (m : M heap A) : M (heap * S) A :=
  fun hs => let '(x, h') := m hs.1 in (x, (h', hs.2)).

Section Enumeration.
Context {Store : Type}.

(** The factory the repository is constructed with (line 129). *)
Variable factory_create_from : TaskWarriorTaskFactory.kwargs -> M heap addr.

(** [load_tasks] of the client returns a dictionary of lists of records, one
    list per group; it is given in the order its values are iterated. *)
Variable load_tasks : Store -> res (list (string * list record)) * Store.

(** The records a group of the client's answer holds are new objects. *)
Definition alloc_group (g : string * list record) : M heap (string * list addr) :=
  ts ← for_each alloc g.2; mret (g.1, ts).

Definition db_load_tasks : M (heap * Store) (list (string * list addr)) :=
  fun hs =>
    match load_tasks hs.2 with
    | (Ok groups, db') =>
        let '(x, h') := for_each alloc_group groups hs.1 in (x, (h', db'))
    | (Raise e, db') => (Raise e, (hs.1, db'))
    end.

(** [all]: lines 131-134. *)
Definition all : M (heap * Store) (list addr) :=
  wtasks ← db_load_tasks;
  let wtasks := concat wtasks.*2 in            (* sum(wtasks.values(), []) *)
  on_heap (for_each
             (fun t => factory_create_from
                         {| TaskWarriorTaskFactory.kw_map := Some t;
                            TaskWarriorTaskFactory.kw_other := None |})
             wtasks).

End Enumeration.

(** [delete] has a module of its own, apart from the [delete] of maps. *)
Module Deletion.
Section Deletion.
Context {Store : Type}.

(** [task_delete(uuid=...)] of the client. *)
Variable task_delete : value -> Store -> res unit * Store.

(** [delete]: lines 136-137. *)
Definition delete (task_source : record) : M Store unit :=
  fun db => task_delete (TaskWarriorTask.uid task_source) db.

End Deletion.
End Deletion.

End TaskWarriorTaskRepository.

(** An in-memory database, to run [save] on, with the process in UTC: [task_add] assigns an identifier
    and the pending status, [task_update] drops the transient [id] from the
    dictionary it is handed, [task_done] returns the completed record. *)

Module MemoryStore.
Import TaskWarriorTaskRepository.

Definition store : Type := list record.

Definition task_add (fields : record) (db : store) : res record * store :=
  let r := <["uuid" := VStr "local-1"]> (<["status" := VStr "pending"]> fields) in
  (Ok r, (db ++ [r])%list).

Definition task_update (task : record) (db : store) : res unit * record * store :=
  (Ok tt, delete "id" task, (db ++ [task])%list).

Definition task_done (keys : record) (db : store) : res record * store :=
  let r := <["status" := VStr "completed"]> keys in
  (Ok r, (db ++ [r])%list).

Definition save : M (@state store) unit :=
  TaskWarriorTaskRepository.save (tz := utc) task_add task_update task_done.

Definition start (src : record) : @state store := State src [] [] [].

(** [load_tasks] answers with the pending records and the others. *)
Definition load_tasks (db : store) : res (list (string * list record)) * store :=
  let is_pending_record r := bool_decide (r !! "status" = Some (VStr "pending")) in
  (Ok [("pending", List.filter is_pending_record db);
       ("completed", List.filter (fun r => negb (is_pending_record r)) db)],
   db).

(** [task_delete] drops the records with the identifier; an identifier that
    no record has is an error. *)
Definition task_delete (uuid : value) (db : store) : res unit * store :=
  let has_uuid r := bool_decide (r !! "uuid" = Some uuid) in
  if existsb has_uuid db
  then (Ok tt, List.filter (fun r => negb (has_uuid r)) db)
  else (Raise (KeyError "uuid"), db).

Definition all : M (heap * store) (list addr) :=
  TaskWarriorTaskRepository.all
    (TaskWarriorTaskFactory.create_from (tz := utc)) load_tasks.
End MemoryStore.

(** A database that is locked: every operation raises. *)

Module LockedStore.
Definition locked : exn := Exception "database is locked".

Definition task_add (fields : record) (db : MemoryStore.store)
    : res record * MemoryStore.store := (Raise locked, db).

Definition task_update (task : record) (db : MemoryStore.store)
    : res unit * record * MemoryStore.store := (Raise locked, task, db).

Definition task_done (keys : record) (db : MemoryStore.store)
    : res record * MemoryStore.store := (Raise locked, db).

Definition load_tasks (db : MemoryStore.store)
    : res (list (string * list record)) * MemoryStore.store := (Raise locked, db).
End LockedStore.

(** Tasks and records the examples run on. *)

Module Samples.
Definition milk : Upstream.Task := {|
  Upstream.provider := "google";
  Upstream.uid := VStr "g-1";
  Upstream.etag := VStr "etag-7";
  Upstream.project := Some "home";
  Upstream.subject := Some "buy milk";
  Upstream.due := Some (Datetime 1577836800 0 None);
  Upstream.completed := Some (Datetime 1577840400 0 None)
|}.


Definition bare : Upstream.Task := {|
  Upstream.provider := "google";
  Upstream.uid := VStr "g-2";
  Upstream.etag := VStr "etag-1";
  Upstream.project := None;
  Upstream.subject := None;
  Upstream.due := None;
  Upstream.completed := None
|}.

Definition pending : record :=
  {[ "status" := VStr "pending"; "description" := VStr "x" ]}.

Definition synced : record :=
  {[ "status" := VStr "pending"; "description" := VStr "x";
     "twgs_etag" := VStr "etag-6" ]}.

Definition saved_done : record :=
  {[ "uuid" := VStr "u-1"; "id" := VInt 3; "status" := VStr "pending";
     "description" := VStr "x"; "end" := VStr "1577840400" ]}.


(** [saved_done] after [save] on the in-memory database. *)
Definition saved_done_after_save : @TaskWarriorTaskRepository.state MemoryStore.store :=
  exec MemoryStore.save (MemoryStore.start saved_done).

(** The same task as [milk] at a later change tag, and a task of another
    provider. *)
Definition milk_changed : Upstream.Task := {|
  Upstream.provider := "google";
  Upstream.uid := VStr "g-1";
  Upstream.etag := VStr "etag-8";
  Upstream.project := Some "errands";
  Upstream.subject := Some "buy oat milk";
  Upstream.due := None;
  Upstream.completed := None
|}.

Definition card : Upstream.Task := {|
  Upstream.provider := "trello";
  Upstream.uid := VStr "t-9";
  Upstream.etag := VStr "v3";
  Upstream.project := None;
  Upstream.subject := Some "buy milk";
  Upstream.due := None;
  Upstream.completed := None
|}.

(** A task due at 02:30 on 8 March 2020, and one due at an aware time. *)
Definition skipped_hour : Upstream.Task := {|
  Upstream.provider := "google";
  Upstream.uid := VStr "g-3";
  Upstream.etag := VStr "etag-2";
  Upstream.project := None;
  Upstream.subject := Some "change the clocks";
  Upstream.due := Some (Datetime 1583634600 0 None);
  Upstream.completed := None
|}.

Definition aware : Upstream.Task := {|
  Upstream.provider := "google";
  Upstream.uid := VStr "g-4";
  Upstream.etag := VStr "etag-3";
  Upstream.project := None;
  Upstream.subject := Some "call Berlin";
  Upstream.due := Some (Datetime 1577836800 0 (Some 3600%Z));
  Upstream.completed := None
|}.

(** A pending record with two annotations, a saved record whose [end] is not
    a number, and a saved record without a status. *)
Definition annotated : record :=
  {[ "status" := VStr "pending"; "description" := VStr "x";
     "annotation_1577836800" := VStr "call first";
     "annotation_1577836900" := VStr "ask for receipt" ]}.

Definition saved_bad_end : record :=
  {[ "uuid" := VStr "u-2"; "status" := VStr "pending";
     "description" := VStr "y"; "end" := VStr "tomorrow" ]}.

Definition saved_no_status : record :=
  {[ "uuid" := VStr "u-3"; "description" := VStr "z" ]}.

Definition saved_completed : record :=
  {[ "uuid" := VStr "u-4"; "status" := VStr "completed";
     "description" := VStr "w"; "end" := VStr "1577840400" ]}.
End Samples.

(** * Properties *)

(** ** The monad *)

Lemma bind_ok {S A B} (m : M S A) (f : A -> M S B) s a s' :
  m s = (Ok a, s') -> (m ≫= f) s = f a s'.
Proof. intros H. unfold mbind, M_bind. now rewrite H. Qed.

Lemma bind_raise {S A B} (m : M S A) (f : A -> M S B) s e s' :
  m s = (Raise e, s') -> (m ≫= f) s = (Raise e, s').
Proof. intros H. unfold mbind, M_bind. now rewrite H. Qed.

(** ** Keys of the record *)

Import TaskWarriorTask.

Lemma association_key_unfold o :
  _association_key_for o = "twgs_assoc_" +:+ Upstream.provider o.
Proof. reflexivity. Qed.

Lemma association_key_not_etag o : _association_key_for o <> __UDA_ETAG.
Proof. rewrite association_key_unfold. cbn. discriminate. Qed.

Lemma association_key_has_prefix o :
  String.prefix __UDA_ASSOCIATION (_association_key_for o) = true.
Proof. rewrite association_key_unfold. reflexivity. Qed.

Lemma associate_with_exec o r :
  associate_with o r =
    (Ok tt, <[__UDA_ETAG := Upstream.etag o]>
              (<[_association_key_for o := Upstream.uid o]> r)).
Proof. reflexivity. Qed.

(** ** [stale] *)

(** C1. A record without the field [twgs_etag] is never stale; a record with
    it is stale for [other] exactly when the stored tag differs from
    [other.etag]. *)
Theorem stale_spec (r : record) (other : Upstream.Task) :
  (r !! "twgs_etag" = None -> stale other r = false) /\
  (forall tag, r !! "twgs_etag" = Some tag ->
     (tag = Upstream.etag other -> stale other r = false) /\
     (tag <> Upstream.etag other -> stale other r = true)).
Proof.
  unfold stale. change __UDA_ETAG with "twgs_etag". split.
  - now intros ->.
  - intros tag ->. split; intros H.
    + now apply bool_decide_eq_false_2; intros [].
    + now apply bool_decide_eq_true_2.
Qed.

Lemma stale_spec_witness :
  stale Samples.milk Samples.pending = false /\
  stale Samples.milk Samples.synced = true /\
  stale Samples.milk (<["twgs_etag" := VStr "etag-7"]> Samples.pending) = false.
Proof.
  split; [|split].
  - apply (stale_spec Samples.pending Samples.milk). reflexivity.
  - apply (proj2 (stale_spec Samples.synced Samples.milk) (VStr "etag-6")).
    + reflexivity.
    + discriminate.
  - apply (proj2 (stale_spec _ Samples.milk) (VStr "etag-7")).
    + reflexivity.
    + reflexivity.
Defined.

(** ** [associate_with] and [is_associated_with] *)

(** C6. Right after [associate_with(other)], [is_associated_with(other)] is
    true and [stale(other)] is false. *)
Theorem associate_then_associated (r : record) (other : Upstream.Task) :
  let r' := exec (associate_with other) r in
  is_associated_with other r' = true /\ stale other r' = false.
Proof.
  unfold exec. rewrite associate_with_exec. cbn [snd]. split.
  - unfold is_associated_with.
    rewrite lookup_insert_ne by (apply not_eq_sym, association_key_not_etag).
    rewrite lookup_insert_eq. now apply bool_decide_eq_true_2.
  - unfold stale. rewrite lookup_insert_eq.
    apply bool_decide_eq_false_2. now intros [].
Qed.

(** C10. [associate_with(other)] writes the association key of [other]'s
    provider and the etag key; every other key of the record keeps its
    presence and its value. *)
Theorem associate_with_frame (r : record) (other : Upstream.Task) (k : string) :
  k <> _association_key_for other -> k <> "twgs_etag" ->
  exec (associate_with other) r !! k = r !! k.
Proof.
  intros Hk He. unfold exec. rewrite associate_with_exec. cbn [snd].
  rewrite lookup_insert_ne by (intros E; apply He; now rewrite <- E).
  now rewrite lookup_insert_ne by (intros E; apply Hk; now rewrite <- E).
Qed.

Lemma associate_with_frame_witness :
  exec (associate_with Samples.milk) Samples.pending !! "status"
    = Samples.pending !! "status" /\
  exec (associate_with Samples.milk) Samples.pending !! "project"
    = Samples.pending !! "project".
Proof.
  split.
  - apply (associate_with_frame Samples.pending Samples.milk "status");
      discriminate.
  - apply (associate_with_frame Samples.pending Samples.milk "project");
      discriminate.
Defined.

(** ** The association key *)

Lemma association_found (r : record) (v : value) :
  association r = v -> v <> VNone ->
  exists k, String.prefix "twgs_assoc" k = true /\ r !! k = Some v.
Proof.
  unfold association. change __UDA_ASSOCIATION with "twgs_assoc".
  destruct (List.find _ _) as [[k w]|] eqn:Hfind.
  - intros <- _. apply List.find_some in Hfind as [Hin Hpre].
    exists k. split; [exact Hpre|].
    now apply elem_of_map_to_list, list_elem_of_In.
  - now intros <- [].
Qed.

Lemma association_none (r : record) :
  (forall k, String.prefix "twgs_assoc" k = true -> r !! k = None) ->
  association r = VNone.
Proof.
  intros Hnone. unfold association. change __UDA_ASSOCIATION with "twgs_assoc".
  destruct (List.find _ _) as [[k w]|] eqn:Hfind; [|reflexivity].
  apply List.find_some in Hfind as [Hin Hpre].
  apply list_elem_of_In, elem_of_map_to_list in Hin.
  rewrite (Hnone k Hpre) in Hin. discriminate.
Qed.

Lemma association_of_some_key (r : record) (k0 : string) (v0 : value) :
  String.prefix "twgs_assoc" k0 = true -> r !! k0 = Some v0 ->
  exists k, String.prefix "twgs_assoc" k = true /\ r !! k = Some (association r).
Proof.
  intros Hpre0 Hk0. unfold association. change __UDA_ASSOCIATION with "twgs_assoc".
  destruct (List.find _ _) as [[k w]|] eqn:Hfind.
  - apply List.find_some in Hfind as [Hin Hpre]. exists k. split; [exact Hpre|].
    now apply elem_of_map_to_list, list_elem_of_In.
  - exfalso. pose proof (List.find_none _ _ Hfind (k0, v0)) as Hno.
    cbn in Hno. rewrite Hpre0 in Hno. discriminate Hno.
    now apply list_elem_of_In, elem_of_map_to_list.
Qed.

(** C5, as the code has it. [associate_with(other)] stores [other]'s
    identifier under the key [twgs_assoc_<p>], the association prefix
    followed by the provider [p] of [other]; the key starts with the prefix
    [twgs_assoc]. The [association] accessor looks for the keys that start
    with this prefix: when the record has one, it returns the value of such
    a key, so the value of the key when there is a single one, and [None]
    when the record has no such key. *)
Theorem association_key_spec (r : record) (other : Upstream.Task) :
  _association_key_for other = "twgs_assoc_" +:+ Upstream.provider other /\
  exec (associate_with other) r !! ("twgs_assoc_" +:+ Upstream.provider other)
    = Some (Upstream.uid other) /\
  String.prefix "twgs_assoc" (_association_key_for other) = true /\
  (forall v, association r = v -> v <> VNone ->
     exists k, String.prefix "twgs_assoc" k = true /\ r !! k = Some v) /\
  ((forall k, String.prefix "twgs_assoc" k = true -> r !! k = None) ->
     association r = VNone) /\
  (forall k0 v0, String.prefix "twgs_assoc" k0 = true -> r !! k0 = Some v0 ->
     exists k, String.prefix "twgs_assoc" k = true /\
               r !! k = Some (association r)) /\
  (forall k0 v0, String.prefix "twgs_assoc" k0 = true -> r !! k0 = Some v0 ->
     (forall k, String.prefix "twgs_assoc" k = true -> is_Some (r !! k) ->
        k = k0) ->
     association r = v0).
Proof.
  split; [reflexivity|]. split; [|split; [|split; [|split; [|split]]]].
  - rewrite <- association_key_unfold. unfold exec.
    rewrite associate_with_exec. cbn [snd].
    rewrite lookup_insert_ne by (apply not_eq_sym, association_key_not_etag).
    apply lookup_insert_eq.
  - apply association_key_has_prefix.
  - apply association_found.
  - apply association_none.
  - apply association_of_some_key.
  - intros k0 v0 Hpre0 Hk0 Honly.
    destruct (association_of_some_key r k0 v0 Hpre0 Hk0) as (k & Hpre & Hk).
    rewrite (Honly k Hpre (mk_is_Some _ _ Hk)) in Hk. congruence.
Qed.

Lemma association_key_spec_witness :
  (exists k, String.prefix "twgs_assoc" k = true /\
     exec (associate_with Samples.milk) Samples.pending !! k = Some (VStr "g-1")) /\
  association Samples.pending = VNone /\
  association {[ "twgs_assoc" := VStr "g-1" ]} = VStr "g-1".
Proof.
  split; [|split].
  - apply (proj1 (proj2 (proj2 (proj2
      (association_key_spec (exec (associate_with Samples.milk) Samples.pending)
                            Samples.milk))))).
    + vm_compute. reflexivity.
    + discriminate.
  - apply (proj1 (proj2 (proj2 (proj2 (proj2
      (association_key_spec Samples.pending Samples.milk)))))).
    intros k Hk. apply eq_None_not_Some. intros [v Hv].
    apply elem_of_map_to_list in Hv. revert Hv Hk. vm_compute.
    intros Hv. apply list_elem_of_In in Hv.
    destruct Hv as [[= <- <-]|[[= <- <-]|[]]]; vm_compute; discriminate.
  - apply (proj2 (proj2 (proj2 (proj2 (proj2 (proj2
      (association_key_spec {[ "twgs_assoc" := VStr "g-1" ]} Samples.milk))))))
      "twgs_assoc" (VStr "g-1")).
    + reflexivity.
    + reflexivity.
    + intros k _ [v Hv]. apply lookup_singleton_Some in Hv as [-> _].
      reflexivity.
Defined.

(** C5, as the claim words it, fails: for the provider [google] nothing is
    stored under [twgs_google_assoc], the key is another one, and the
    accessor does not see a key of that form, while it sees the key the code
    writes. *)
Lemma association_key_infix_counterexample :
  exec (associate_with Samples.milk) Samples.pending !! "twgs_google_assoc" = None /\
  _association_key_for Samples.milk <> "twgs_google_assoc" /\
  association {[ "twgs_google_assoc" := VStr "g-1" ]} = VNone /\
  association {[ "twgs_assoc_google" := VStr "g-1" ]} = VStr "g-1".
Proof.
  split; [|split; [|split]].
  - vm_compute. reflexivity.
  - vm_compute. discriminate.
  - vm_compute. reflexivity.
  - vm_compute. reflexivity.
Qed.

(** ** [copy_from] *)

(** C7. [copy_from(None)] raises [ValueError] and the record is as it was:
    the record the method ends on is the one it started on, and on the heap
    the dictionary of the wrapper, like every other object, is untouched. *)
Theorem copy_from_None_raises {tz : local_zone} (r : record) (h : heap) (task : addr) :
  copy_from None r = (Raise (ValueError "Cannot sync with nothing."), r) /\
  (h !! task = Some r ->
   at_addr task (copy_from None) h =
     (Raise (ValueError "Cannot sync with nothing."), h)).
Proof.
  split; [reflexivity|].
  intros Hr. unfold at_addr, copy_from, raise. rewrite Hr.
  f_equal. now apply list_insert_id.
Qed.

Lemma copy_from_None_raises_witness :
  at_addr 1 (copy_from (tz := utc) None) [Samples.pending; Samples.saved_done] =
    (Raise (ValueError "Cannot sync with nothing."),
     [Samples.pending; Samples.saved_done]).
Proof.
  apply (copy_from_None_raises Samples.saved_done
           [Samples.pending; Samples.saved_done] 1).
  reflexivity.
Defined.

(** ** [should_sync] *)

Lemma status_states (r : record) (s : value) :
  status r = Ok s ->
  is_pending r = Ok (bool_decide (s = VStr "pending")) /\
  is_completed r = Ok (bool_decide (s = VStr "completed")) /\
  is_deleted r = Ok (bool_decide (s = VStr "deleted")).
Proof. unfold is_pending, is_completed, is_deleted. now intros ->. Qed.

(** A record without a status has no answer: the lookup error of [status]
    comes out of [should_sync]. *)
Lemma should_sync_without_status (r : record) :
  r !! "status" = None -> should_sync r = Raise (KeyError "status").
Proof. intros H. unfold should_sync, status, getitem. now rewrite H. Qed.

Lemma should_sync_by_status (r : record) (s : value) :
  status r = Ok s ->
  should_sync r =
    Ok (negb (bool_decide (s = VStr "recurring")
              || bool_decide (s = VStr "deleted")
              || (bool_decide (s = VStr "completed")
                  && is_None (association r)))).
Proof.
  intros Hs. unfold should_sync, is_deleted, is_completed. rewrite Hs. cbn.
  destruct (bool_decide (s = VStr "recurring")); cbn; [reflexivity|].
  destruct (bool_decide (s = VStr "deleted")); cbn; [reflexivity|].
  destruct (bool_decide (s = VStr "completed")); cbn; [|reflexivity].
  now destruct (is_None (association r)).
Qed.

(** C2. For a wrapper whose record has a status, [should_sync] is false when
    the status is [recurring] or the task is deleted, false when the task is
    completed and [association] is [None], and true in every other case: in
    particular for a pending task and for a completed task with an
    association. *)
Theorem should_sync_spec (r : record) :
  (status r = Ok (VStr "recurring") -> should_sync r = Ok false) /\
  (is_deleted r = Ok true -> should_sync r = Ok false) /\
  (is_completed r = Ok true -> association r = VNone ->
     should_sync r = Ok false) /\
  (forall s, status r = Ok s ->
     s <> VStr "recurring" -> is_deleted r <> Ok true ->
     ~ (is_completed r = Ok true /\ association r = VNone) ->
     should_sync r = Ok true) /\
  (is_pending r = Ok true -> should_sync r = Ok true) /\
  (is_completed r = Ok true -> association r <> VNone ->
     should_sync r = Ok true).
Proof.
  assert (Hstate : forall (p : record -> res bool) name,
            (p r = s ← status r; Ok (bool_decide (s = VStr name))) ->
            p r = Ok true -> status r = Ok (VStr name)).
  { intros p name -> H. destruct (status r) as [s|e]; [|discriminate].
    cbn in H. injection H as H. now apply bool_decide_eq_true_1 in H as ->. }
  assert (Hnone : forall v, is_None v = true <-> v = VNone).
  { intros [| |]; cbn; split; congruence. }
  repeat split.
  - intros Hs. now rewrite (should_sync_by_status r _ Hs).
  - intros Hd. apply (Hstate is_deleted "deleted" eq_refl) in Hd.
    now rewrite (should_sync_by_status r _ Hd).
  - intros Hc Ha. apply (Hstate is_completed "completed" eq_refl) in Hc.
    rewrite (should_sync_by_status r _ Hc), Ha. reflexivity.
  - intros s Hs Hrec Hdel Hdone.
    destruct (status_states r s Hs) as (_ & Hc & Hd).
    rewrite (should_sync_by_status r s Hs). f_equal.
    rewrite (bool_decide_eq_false_2 _ Hrec). cbn.
    destruct (bool_decide (s = VStr "deleted")) eqn:Ed; cbn.
    { exfalso. apply Hdel. now rewrite Hd. }
    destruct (bool_decide (s = VStr "completed")) eqn:Ec; cbn; [|reflexivity].
    destruct (is_None (association r)) eqn:Ea; [|reflexivity].
    exfalso. apply Hdone. split; [now rewrite Hc|now apply Hnone].
  - intros Hp. apply (Hstate is_pending "pending" eq_refl) in Hp.
    now rewrite (should_sync_by_status r _ Hp).
  - intros Hc Ha. apply (Hstate is_completed "completed" eq_refl) in Hc.
    rewrite (should_sync_by_status r _ Hc). cbn.
    destruct (is_None (association r)) eqn:Ea; [|reflexivity].
    now apply Hnone in Ea.
Qed.

Lemma should_sync_spec_witness :
  should_sync {[ "status" := VStr "recurring" ]} = Ok false /\
  should_sync {[ "status" := VStr "deleted" ]} = Ok false /\
  should_sync {[ "status" := VStr "completed" ]} = Ok false /\
  should_sync {[ "status" := VStr "waiting" ]} = Ok true /\
  should_sync Samples.pending = Ok true /\
  should_sync {[ "status" := VStr "completed";
                 "twgs_assoc_google" := VStr "g-1" ]} = Ok true.
Proof.
  split; [|split; [|split; [|split; [|split]]]].
  - apply (proj1 (should_sync_spec _)). reflexivity.
  - apply (proj1 (proj2 (should_sync_spec _))). reflexivity.
  - apply (proj1 (proj2 (proj2 (should_sync_spec _)))); reflexivity.
  - apply (proj1 (proj2 (proj2 (proj2 (should_sync_spec _))))
             (VStr "waiting")).
    + reflexivity.
    + discriminate.
    + vm_compute. discriminate.
    + vm_compute. intros [H _]. discriminate.
  - apply (proj1 (proj2 (proj2 (proj2 (proj2 (should_sync_spec _)))))).
    reflexivity.
  - apply (proj2 (proj2 (proj2 (proj2 (proj2 (should_sync_spec _)))))).
    + reflexivity.
    + vm_compute. discriminate.
Defined.

(** ** Dates in the record *)

Lemma lstrip_plain (s : string) :
  all_chars digit_or_minus s = true -> lstrip s = s.
Proof.
  destruct s as [|c s]; [reflexivity|]. cbn. unfold digit_or_minus.
  now destruct (is_space c).
Qed.

Lemma rstrip_plain (s : string) :
  all_chars digit_or_minus s = true -> rstrip s = s.
Proof.
  induction s as [|c s IH]; [reflexivity|]. cbn. unfold digit_or_minus at 1.
  intros H. apply andb_prop in H as [Hc Hs]. rewrite (IH Hs).
  destruct s; [|reflexivity]. now destruct (is_space c).
Qed.

Lemma string_of_uint_plain (d : Decimal.uint) :
  all_chars digit_or_minus (NilEmpty.string_of_uint d) = true.
Proof. induction d; cbn; auto. Qed.

Lemma string_of_int_plain (i : Decimal.int) :
  all_chars digit_or_minus (NilZero.string_of_int i) = true.
Proof.
  assert (H : forall d, all_chars digit_or_minus (NilZero.string_of_uint d) = true).
  { intros [| | | | | | | | | |]; try reflexivity;
      apply (string_of_uint_plain (_ _)). }
  destruct i as [d|d]; [apply H|].
  change (digit_or_minus "-" && all_chars digit_or_minus (NilZero.string_of_uint d) = true).
  now rewrite H.
Qed.

Lemma int_of_literal_decimal (z : Z) :
  int_of_literal (NilZero.string_of_int (Z.to_int z)) = Some z.
Proof.
  unfold int_of_literal, strip.
  pose proof (string_of_int_plain (Z.to_int z)) as Hplain.
  rewrite (lstrip_plain _ Hplain), (rstrip_plain _ Hplain).
  assert (Hparse : NilZero.int_of_string (NilZero.string_of_int (Z.to_int z))
                   = Some (Z.to_int z)).
  { apply NilZero.isi; destruct z; cbn; try discriminate;
      intros [= H]; now apply Unsigned.to_uint_nonnil in H. }
  destruct (NilZero.string_of_int (Z.to_int z)) as [|c s] eqn:E.
  - discriminate Hparse.
  - cbn in Hplain. apply andb_prop in Hplain as [Hc _].
    unfold digit_or_minus in Hc. apply andb_prop in Hc as [_ Hc].
    apply negb_true_iff in Hc. rewrite Hc, Hparse. cbn.
    now rewrite DecimalZ.of_to.
Qed.

(** What is read back from a formatted date is the local time of the epoch
    second the zone gives to the date. *)
Lemma parse_format_date {tz : local_zone} (d : datetime) :
  __parse_date (__format_date d) =
    (d' ← fromtimestamp (mktime (wall_second d)); Ok (Some d')).
Proof.
  unfold __parse_date, __format_date, strftime_s. cbn.
  now rewrite int_of_literal_decimal.
Qed.



(** ** [copy_from] on a task *)

Lemma set_or_delete_run {A} (key : string) (v : option A) (fmt : A -> value)
    (r : record) :
  _set_or_delete key v fmt r =
    (Ok tt, match v with
            | Some a => <[key := fmt a]> r
            | None => delete key r
            end).
Proof. now destruct v. Qed.

Lemma set_or_delete_lookup {A} (key : string) (v : option A) (fmt : A -> value)
    (r : record) :
  exec (_set_or_delete key v fmt) r !! key = fmt <$> v.
Proof.
  unfold exec. rewrite set_or_delete_run. cbn [snd].
  destruct v; [apply lookup_insert_eq|apply lookup_delete_eq].
Qed.

Lemma set_or_delete_lookup_ne {A} (key k : string) (v : option A)
    (fmt : A -> value) (r : record) :
  key <> k -> exec (_set_or_delete key v fmt) r !! k = r !! k.
Proof.
  intros Hne. unfold exec. rewrite set_or_delete_run. cbn [snd].
  destruct v; [now apply lookup_insert_ne|now apply lookup_delete_ne].
Qed.

Lemma copy_from_run {tz : local_zone} (other : Upstream.Task) (r : record) :
  copy_from (Some other) r =
    (Ok tt,
     exec (_set_or_delete "end" (Upstream.completed other) __format_date)
       (exec (_set_or_delete "due" (Upstream.due other) __format_date)
          (exec (_set_or_delete "description" (Upstream.subject other) VStr)
             (exec (_set_or_delete "project" (Upstream.project other) VStr) r)))).
Proof.
  unfold copy_from, exec.
  repeat (erewrite bind_ok by apply set_or_delete_run).
  rewrite !set_or_delete_run. reflexivity.
Qed.

Lemma copy_from_lookup {tz : local_zone} (other : Upstream.Task) (r : record) :
  let r' := exec (copy_from (Some other)) r in
  r' !! "project" = VStr <$> Upstream.project other /\
  r' !! "description" = VStr <$> Upstream.subject other /\
  r' !! "due" = __format_date <$> Upstream.due other /\
  r' !! "end" = __format_date <$> Upstream.completed other.
Proof.
  cbv zeta. unfold exec at 1 2 3 4. rewrite copy_from_run. cbn [snd].
  repeat split.
  - rewrite !set_or_delete_lookup_ne by discriminate.
    apply set_or_delete_lookup.
  - rewrite !set_or_delete_lookup_ne by discriminate.
    apply set_or_delete_lookup.
  - rewrite set_or_delete_lookup_ne by discriminate.
    apply set_or_delete_lookup.
  - apply set_or_delete_lookup.
Qed.



(** The two other kinds of date that do not come back. In US Eastern time
    02:30 on 8 March 2020, an hour the clock skips, comes back as 03:30; and
    an aware datetime comes back naive. *)
Lemma copy_from_skipped_hour_and_aware :
  due (tz := eastern_2020)
      (exec (copy_from (tz := eastern_2020) (Some Samples.skipped_hour))
            Samples.pending)
    = Ok (Some (Datetime 1583638200 0 None)) /\
  survives_epoch (tz := eastern_2020) (Datetime 1583634600 0 None) = false /\
  due (tz := utc)
      (exec (copy_from (tz := utc) (Some Samples.aware)) Samples.pending)
    = Ok (Some (Datetime 1577836800 0 None)) /\
  survives_epoch (tz := utc) (Datetime 1577836800 0 (Some 3600%Z)) = false.
Proof. repeat split; vm_compute; reflexivity. Qed.


(** ** The factory *)

Import TaskWarriorTaskFactory.

(** C8. [create_from] with neither [map] nor [other] raises [KeyError]; no
    wrapper and no dictionary is made. *)
Theorem create_from_without_source_raises {tz : local_zone} (kw : kwargs) (h : heap) :
  kw_map kw = None -> kw_other kw = None ->
  create_from kw h =
    (Raise (KeyError "Either a map or task argument must be provided."), h).
Proof. intros Hm Ho. unfold create_from. now rewrite Hm, Ho. Qed.

Lemma create_from_without_source_raises_witness :
  create_from (tz := utc) {| kw_map := None; kw_other := None |} [Samples.pending] =
    (Raise (KeyError "Either a map or task argument must be provided."),
     [Samples.pending]).
Proof.
  apply (create_from_without_source_raises
           {| kw_map := None; kw_other := None |} [Samples.pending]);
    reflexivity.
Defined.

(** C9. With both [map] and [other], the map wins: the new wrapper holds a
    new dictionary with the content of the map, nothing else on the heap
    changes, and the result is the same whatever [other] is, also when it is
    [None], for which [copy_from] would raise. *)
Theorem create_from_map_precedence {tz : local_zone} (kw : kwargs) (h : heap) (map : addr)
    (m : record) :
  kw_map kw = Some map -> h !! map = Some m ->
  create_from kw h = (Ok (length h), (h ++ [m])%list) /\
  (h ++ [m])%list !! length h = Some m /\
  (h ++ [m])%list !! map = Some m /\
  length h <> map.
Proof.
  intros Hkw Hm. pose proof (lookup_lt_Some _ _ _ Hm) as Hlt.
  split; [|split; [|split]].
  - unfold create_from. rewrite Hkw.
    erewrite bind_ok by (unfold deref; now rewrite Hm). reflexivity.
  - rewrite lookup_app_r by reflexivity. now rewrite Nat.sub_diag.
  - now rewrite lookup_app_l.
  - intros E. rewrite E in Hlt. now apply Nat.lt_irrefl in Hlt.
Qed.

Lemma create_from_map_precedence_witness :
  create_from (tz := utc) {| kw_map := Some 0; kw_other := Some None |} [Samples.pending]
    = (Ok 1, [Samples.pending; Samples.pending]) /\
  create_from (tz := utc) {| kw_map := Some 0; kw_other := Some (Some Samples.milk) |}
              [Samples.pending]
    = (Ok 1, [Samples.pending; Samples.pending]).
Proof.
  split.
  - apply (create_from_map_precedence
             {| kw_map := Some 0; kw_other := Some None |}
             [Samples.pending] 0 Samples.pending); reflexivity.
  - apply (create_from_map_precedence
             {| kw_map := Some 0; kw_other := Some (Some Samples.milk) |}
             [Samples.pending] 0 Samples.pending); reflexivity.
Defined.

(** Without [map], [other] is copied into a new pending record. *)
Lemma create_from_other {tz : local_zone} (kw : kwargs) (h : heap) (other : Upstream.Task) :
  kw_map kw = None -> kw_other kw = Some (Some other) ->
  create_from kw h =
    (Ok (length h),
     (h ++ [exec (copy_from (Some other)) {[ "status" := VStr "pending" ]}])%list).
Proof.
  intros Hm Ho. unfold create_from. rewrite Hm, Ho.
  erewrite bind_ok by reflexivity.
  erewrite bind_ok.
  - reflexivity.
  - unfold at_addr. rewrite lookup_app_r by reflexivity.
    rewrite Nat.sub_diag. cbn [lookup list_lookup].
    unfold exec. rewrite copy_from_run. cbn [snd]. f_equal.
    now rewrite insert_app_r_alt, Nat.sub_diag by reflexivity.
Qed.

(** ** The repository *)

Import TaskWarriorTaskRepository.

Lemma completion_keys_lookup (src : record) (k : string) :
  completion_keys src !! k =
    if decide (k = "uuid" \/ k = "end") then src !! k else None.
Proof.
  unfold completion_keys. destruct (decide _) as [Hk|Hk].
  - destruct (src !! k) as [v|] eqn:E.
    + now apply map_lookup_filter_Some_2.
    + apply map_lookup_filter_None_2. now left.
  - apply map_lookup_filter_None_2. right. intros v _. exact Hk.
Qed.

Section Save.
Context {Store : Type} {tz : local_zone}.
Variable task_add : record -> Store -> res record * Store.
Variable task_update : record -> Store -> res unit * record * Store.
Variable task_done : record -> Store -> res record * Store.

Local Abbreviation create_or_update := (save_create_or_update task_add task_update).
Local Abbreviation mark_complete := (save_mark_complete task_done).
Local Abbreviation save := (save task_add task_update task_done).

(** The first step issues one call, a create for a task without an
    identifier and an update otherwise. *)
Lemma create_or_update_calls (st : state) :
  calls (exec create_or_update st) =
    (calls st ++ [if is_None (uid (_source st))
                  then Call_task_add (_source st)
                  else Call_task_update (_source st)])%list.
Proof.
  unfold exec, save_create_or_update.
  erewrite bind_ok by reflexivity.
  destruct (is_None (uid (_source st))).
  - unfold mbind, M_bind, db_task_add.
    destruct (task_add _ _) as [[r|e] db']; reflexivity.
  - unfold db_task_update.
    destruct (task_update _ _) as [[x task'] db']. reflexivity.
Qed.

Lemma mark_complete_run (st : state) :
  let src := _source st in
  mark_complete st =
    match is_pending src with
    | Ok true =>
        match completed src with
        | Ok (Some _) =>
            let keys := completion_keys src in
            let issued := (calls st ++ [Call_task_done keys])%list in
            let logged := (log st ++ [Marking_as_complete src])%list in
            match task_done keys (_db st) with
            | (Ok r, db') => (Ok tt, State r db' issued logged)
            | (Raise e, db') => (Raise e, State src db' issued logged)
            end
        | Ok None => (Ok tt, st)
        | Raise e => (Raise e, st)
        end
    | Ok false => (Ok tt, st)
    | Raise e => (Raise e, st)
    end.
Proof.
  destruct st as [src db cs lg]. cbn [_source _db calls log].
  unfold save_mark_complete, mbind, M_bind, get, lift, log_info,
    db_task_done, set_source, modify.
  cbn [_source _db calls log].
  destruct (is_pending src) as [[|]|e]; try reflexivity.
  destruct (completed src) as [[d|]|e]; try reflexivity.
  destruct (task_done _ _) as [[r|e] db']; reflexivity.
Qed.

(** C3. After the create-or-update step of [save] the store's mark-complete
    operation is issued if, and only if, the task is pending and its
    [completed] is not [None]. It is passed the [uuid] and [end] fields of
    the record and no other, and the record the store returns becomes the
    record of the wrapper. *)
Theorem save_completion_transition (st st1 : state) :
  create_or_update st = (Ok tt, st1) ->
  let src := _source st1 in
  let fires := is_pending src = Ok true /\
               exists d, completed src = Ok (Some d) in
  let after := exec save st in
  ((exists keys, calls after = (calls st1 ++ [Call_task_done keys])%list)
     <-> fires) /\
  (fires ->
     calls after = (calls st1 ++ [Call_task_done (completion_keys src)])%list /\
     (forall k, completion_keys src !! k =
                  if decide (k = "uuid" \/ k = "end") then src !! k else None) /\
     (forall r db', task_done (completion_keys src) (_db st1) = (Ok r, db') ->
        (save st).1 = Ok tt /\ _source after = r /\ _db after = db')) /\
  (~ fires ->
     calls after = calls st1 /\ _source after = src /\ _db after = _db st1).
Proof.
  intros Hstep src fires after.
  assert (Hsave : save st = mark_complete st1).
  { unfold TaskWarriorTaskRepository.save. now erewrite bind_ok by exact Hstep. }
  assert (Hfires : fires ->
            calls after = (calls st1 ++ [Call_task_done (completion_keys src)])%list /\
            (forall r db', task_done (completion_keys src) (_db st1) = (Ok r, db') ->
               (save st).1 = Ok tt /\ _source after = r /\ _db after = db')).
  { intros [Hp [d Hc]]. unfold after, exec. rewrite Hsave, mark_complete_run.
    cbv zeta. fold src. rewrite Hp, Hc.
    destruct (task_done _ _) as [[r|e] db'].
    - split; [reflexivity|]. now intros r' db'' [= <- <-].
    - split; [reflexivity|]. intros r' db'' [=]. }
  assert (Hquiet : ~ fires ->
            calls after = calls st1 /\ _source after = src /\ _db after = _db st1).
  { intros Hn. unfold after, exec. rewrite Hsave, mark_complete_run.
    cbv zeta. fold src.
    destruct (is_pending src) as [[|]|e] eqn:Hp; try now repeat split.
    destruct (completed src) as [[d|]|e] eqn:Hc; try now repeat split.
    exfalso. apply Hn. split; [reflexivity|now exists d]. }
  split; [|split; [|exact Hquiet]].
  - split.
    + intros [keys Hk].
      destruct (is_pending src) as [[|]|e] eqn:Hp;
        destruct (completed src) as [[d|]|e'] eqn:Hc;
        try (split; [reflexivity|now exists d]);
        exfalso;
        (assert (Hn : ~ fires) by (intros [Hp' [d' Hc']]; congruence));
        destruct (Hquiet Hn) as [Hcalls _]; rewrite Hcalls in Hk;
        apply (f_equal length) in Hk; rewrite length_app in Hk; cbn in Hk; lia.
    + intros Hf. exists (completion_keys src). now apply Hfires.
  - intros Hf. destruct (Hfires Hf) as [Hcalls Hret].
    split; [exact Hcalls|]. split; [|exact Hret].
    apply completion_keys_lookup.
Qed.

End Save.

Lemma save_completion_transition_witness :
  calls Samples.saved_done_after_save =
    [Call_task_update Samples.saved_done;
     Call_task_done {[ "uuid" := VStr "u-1"; "end" := VStr "1577840400" ]}] /\
  _source Samples.saved_done_after_save =
    {[ "status" := VStr "completed"; "uuid" := VStr "u-1";
       "end" := VStr "1577840400" ]}.
Proof.
  pose proof (save_completion_transition (tz := utc)
                MemoryStore.task_add MemoryStore.task_update MemoryStore.task_done
                (MemoryStore.start Samples.saved_done)
                (State (delete "id" Samples.saved_done) [Samples.saved_done]
                       [Call_task_update Samples.saved_done] [])
                eq_refl) as H.
  cbv zeta in H. destruct H as (_ & Hfires & _).
  destruct Hfires as (Hcalls & _ & Hret).
  { split; [reflexivity|]. exists (Datetime 1577840400 0 None). reflexivity. }
  unfold Samples.saved_done_after_save, MemoryStore.save. split.
  - etransitivity; [exact Hcalls|]. vm_compute. reflexivity.
  - eapply Hret. reflexivity.
Defined.

(** * Further properties of the wrapper *)

(** ** Associations of several tasks and providers *)

Lemma association_key_inj (o1 o2 : Upstream.Task) :
  _association_key_for o1 = _association_key_for o2 ->
  Upstream.provider o1 = Upstream.provider o2.
Proof. rewrite !association_key_unfold. cbn. now intros [=]. Qed.

Lemma associate_with_lookup (o : Upstream.Task) (r : record) (k : string) :
  exec (associate_with o) r !! k =
    if decide (k = __UDA_ETAG) then Some (Upstream.etag o)
    else if decide (k = _association_key_for o) then Some (Upstream.uid o)
    else r !! k.
Proof.
  unfold exec. rewrite associate_with_exec. cbn [snd].
  destruct (decide (k = __UDA_ETAG)) as [->|He].
  - apply lookup_insert_eq.
  - rewrite lookup_insert_ne by congruence.
    destruct (decide (k = _association_key_for o)) as [->|Hk].
    + apply lookup_insert_eq.
    + now rewrite lookup_insert_ne by congruence.
Qed.

(** X1. Associating again with a task of the same provider replaces the
    earlier association and tag: the record is the one a single
    [associate_with] of the later task gives, so a record never holds two
    association fields of one provider. *)
Theorem associate_with_overwrites (r : record) (o1 o2 : Upstream.Task) :
  Upstream.provider o1 = Upstream.provider o2 ->
  exec (associate_with o2) (exec (associate_with o1) r) =
    exec (associate_with o2) r.
Proof.
  intros Hp. apply map_eq. intros k. rewrite !associate_with_lookup.
  assert (Hk : _association_key_for o1 = _association_key_for o2)
    by (rewrite !association_key_unfold; now rewrite Hp).
  rewrite Hk. now repeat case_decide.
Qed.

Lemma associate_with_overwrites_witness :
  exec (associate_with Samples.milk_changed)
       (exec (associate_with Samples.milk) Samples.pending) =
    exec (associate_with Samples.milk_changed) Samples.pending.
Proof.
  apply (associate_with_overwrites Samples.pending Samples.milk
           Samples.milk_changed).
  reflexivity.
Defined.

(** X2. Associating with a task of one provider leaves what
    [is_associated_with] answers for a task of another provider as it
    was. *)
Theorem associate_with_other_provider (r : record) (o o' : Upstream.Task) :
  Upstream.provider o <> Upstream.provider o' ->
  is_associated_with o' (exec (associate_with o) r) = is_associated_with o' r.
Proof.
  intros Hp. unfold is_associated_with. rewrite associate_with_lookup.
  destruct (decide _) as [He|_].
  { now apply association_key_not_etag in He. }
  destruct (decide _) as [Hk|_]; [|reflexivity].
  apply association_key_inj in Hk. now destruct Hp.
Qed.

Lemma associate_with_other_provider_witness :
  is_associated_with Samples.card
      (exec (associate_with Samples.milk)
            (exec (associate_with Samples.card) Samples.pending))
    = is_associated_with Samples.card
        (exec (associate_with Samples.card) Samples.pending).
Proof.
  apply (associate_with_other_provider _ Samples.milk Samples.card).
  discriminate.
Defined.

(** X3. After [associate_with(other)], a task of the same provider is
    associated exactly when it has the identifier of [other]. *)
Theorem associate_with_same_provider (r : record) (o o' : Upstream.Task) :
  Upstream.provider o' = Upstream.provider o ->
  (is_associated_with o' (exec (associate_with o) r) = true
     <-> Upstream.uid o' = Upstream.uid o).
Proof.
  intros Hp. unfold is_associated_with. rewrite associate_with_lookup.
  destruct (decide _) as [He|_].
  { now apply association_key_not_etag in He. }
  assert (Hk : _association_key_for o' = _association_key_for o)
    by (rewrite !association_key_unfold; now rewrite Hp).
  rewrite decide_True by exact Hk.
  rewrite bool_decide_eq_true. split; congruence.
Qed.

Lemma associate_with_same_provider_witness :
  is_associated_with Samples.milk_changed
    (exec (associate_with Samples.milk) Samples.pending) = true.
Proof.
  apply (associate_with_same_provider Samples.pending Samples.milk
           Samples.milk_changed); reflexivity.
Defined.

(** X4. After [associate_with(other)] the record is stale for a task exactly
    when the change tag of that task is not the tag of [other]. *)
Theorem stale_after_associate_with (r : record) (o o' : Upstream.Task) :
  stale o' (exec (associate_with o) r) = true
    <-> Upstream.etag o <> Upstream.etag o'.
Proof.
  unfold stale. rewrite associate_with_lookup.
  rewrite decide_True by reflexivity. apply bool_decide_eq_true.
Qed.

(** X5. On a record without any association field, [association] after
    [associate_with(other)] is the identifier of [other]. *)
Theorem association_after_first_associate (r : record) (o : Upstream.Task) :
  (forall k, String.prefix "twgs_assoc" k = true -> r !! k = None) ->
  association (exec (associate_with o) r) = Upstream.uid o.
Proof.
  intros Hfree. unfold association. change __UDA_ASSOCIATION with "twgs_assoc".
  destruct (List.find _ _) as [[k v]|] eqn:Hfind.
  - apply List.find_some in Hfind as [Hin Hpre]. cbn in Hpre.
    apply list_elem_of_In, elem_of_map_to_list in Hin.
    rewrite associate_with_lookup in Hin.
    destruct (decide (k = __UDA_ETAG)) as [->|_]; [discriminate Hpre|].
    destruct (decide _) as [_|_]; [congruence|].
    rewrite (Hfree k Hpre) in Hin. discriminate.
  - exfalso.
    pose proof (List.find_none _ _ Hfind
                  (_association_key_for o, Upstream.uid o)) as Hno.
    cbn in Hno. rewrite association_key_unfold in Hno. cbn in Hno.
    assert (Hin : In (_association_key_for o, Upstream.uid o)
                     (map_to_list (exec (associate_with o) r))).
    { apply list_elem_of_In, elem_of_map_to_list.
      rewrite associate_with_lookup.
      rewrite decide_False by apply association_key_not_etag.
      now rewrite decide_True. }
    rewrite association_key_unfold in Hin. specialize (Hno Hin). discriminate.
Qed.

Lemma association_after_first_associate_witness :
  association (exec (associate_with Samples.milk) Samples.pending) = VStr "g-1".
Proof.
  apply (association_after_first_associate Samples.pending Samples.milk).
  intros k Hk. apply eq_None_not_Some. intros [v Hv].
  apply elem_of_map_to_list in Hv. revert Hv Hk. vm_compute.
  intros Hv. apply list_elem_of_In in Hv.
  destruct Hv as [[= <- <-]|[[= <- <-]|[]]]; vm_compute; discriminate.
Defined.

(** ** What [copy_from] leaves alone *)

Lemma copy_from_lookup_other {tz : local_zone} (o : Upstream.Task) (r : record) (k : string) :
  k <> "project" -> k <> "description" -> k <> "due" -> k <> "end" ->
  exec (copy_from (Some o)) r !! k = r !! k.
Proof.
  intros Hp Hs Hd He. unfold exec at 1. rewrite copy_from_run. cbn [snd].
  now rewrite !set_or_delete_lookup_ne by congruence.
Qed.

(** X6. [copy_from(other)] writes the fields [project], [description], [due]
    and [end] and no other: every other key of the record keeps its presence
    and its value. *)
Theorem copy_from_frame {tz : local_zone} (r : record) (other : Upstream.Task) (k : string) :
  k <> "project" -> k <> "description" -> k <> "due" -> k <> "end" ->
  exec (copy_from (Some other)) r !! k = r !! k.
Proof. apply copy_from_lookup_other. Qed.

Lemma copy_from_frame_witness :
  exec (copy_from (tz := utc) (Some Samples.milk)) Samples.saved_done !! "uuid"
    = Some (VStr "u-1").
Proof.
  etransitivity.
  - apply (copy_from_frame Samples.saved_done Samples.milk "uuid");
      discriminate.
  - reflexivity.
Defined.

(** X7. [copy_from(other)] does not touch the bookkeeping of the
    synchronisation: the identifier and the status of the task, and what
    [stale] and [is_associated_with] answer for any task, are as before. *)
Theorem copy_from_keeps_bookkeeping {tz : local_zone} (r : record) (other o : Upstream.Task) :
  let r' := exec (copy_from (Some other)) r in
  uid r' = uid r /\
  status r' = status r /\
  stale o r' = stale o r /\
  is_associated_with o r' = is_associated_with o r.
Proof.
  cbv zeta. unfold uid, status, stale, is_associated_with, get_or_None, getitem.
  rewrite !copy_from_lookup_other; try (cbn; discriminate).
  now repeat split.
Qed.

(** X8. The four fields after [copy_from] depend on the last source only:
    copying from one task and then from another gives the record that
    copying from the second alone gives, and copying twice from the same
    task is copying once. *)
Theorem copy_from_last_wins {tz : local_zone} (r : record) (o1 o2 : Upstream.Task) :
  exec (copy_from (Some o2)) (exec (copy_from (Some o1)) r) =
    exec (copy_from (Some o2)) r.
Proof.
  apply map_eq. intros k.
  destruct (copy_from_lookup o2 (exec (copy_from (Some o1)) r))
    as (Hp & Hs & Hd & He).
  destruct (copy_from_lookup o2 r) as (Hp' & Hs' & Hd' & He').
  cbv zeta in *.
  destruct (decide (k = "project")) as [->|?]; [congruence|].
  destruct (decide (k = "description")) as [->|?]; [congruence|].
  destruct (decide (k = "due")) as [->|?]; [congruence|].
  destruct (decide (k = "end")) as [->|?]; [congruence|].
  now rewrite !copy_from_lookup_other.
Qed.

(** X9. A date that was read from a record survives [copy_from] exactly:
    when the [due] of the source task is what [due] gives on some record,
    [due] after [copy_from] is the [due] of the source, and so for
    [completed]. *)
Theorem copy_from_stored_dates {tz : local_zone} (r r0 : record) (other : Upstream.Task) :
  let r' := exec (copy_from (Some other)) r in
  (due r0 = Ok (Upstream.due other) -> due r' = Ok (Upstream.due other)) /\
  (completed r0 = Ok (Upstream.completed other) ->
     completed r' = Ok (Upstream.completed other)).
Proof.
  assert (Hback : forall v d, __parse_date v = Ok (Some d) ->
            (d' ← fromtimestamp (mktime (wall_second d)); Ok (Some d'))
              = Ok (Some d)).
  { intros v d. unfold __parse_date. destruct (is_None v); [discriminate|].
    destruct (int v) as [n|e]; [|discriminate]. cbn. unfold fromtimestamp.
    destruct (in_range (localtime n)) eqn:Hr; [|discriminate].
    cbn. intros [= <-]. cbn. now rewrite localtime_mktime, Hr. }
  destruct (copy_from_lookup other r) as (_ & _ & Hd & He). cbv zeta in *.
  split.
  - unfold due at 2, get_or_None. rewrite Hd.
    destruct (Upstream.due other) as [d|]; [|reflexivity].
    intros H0. apply Hback in H0.
    change (default VNone (__format_date <$> Some d)) with (__format_date d).
    now rewrite parse_format_date.
  - unfold completed at 2, get_or_None. rewrite He.
    destruct (Upstream.completed other) as [d|]; [|reflexivity].
    intros H0. apply Hback in H0.
    change (default VNone (__format_date <$> Some d)) with (__format_date d).
    now rewrite parse_format_date.
Qed.

Lemma copy_from_stored_dates_witness :
  due (tz := utc) (exec (copy_from (tz := utc) (Some Samples.milk)) Samples.pending)
    = Ok (Upstream.due Samples.milk) /\
  completed (tz := utc) (exec (copy_from (tz := utc) (Some Samples.milk)) Samples.pending)
    = Ok (Upstream.completed Samples.milk).
Proof.
  split.
  - apply (proj1 (copy_from_stored_dates (tz := utc) Samples.pending
                    {[ "due" := VStr " 1577836800 " ]} Samples.milk)).
    reflexivity.
  - apply (proj2 (copy_from_stored_dates (tz := utc) Samples.pending
                    Samples.saved_done Samples.milk)).
    reflexivity.
Defined.

(** ** [annotations] *)

Lemma annotations_lookup (r : record) (k : string) :
  annotations r !! k =
    if String.prefix "annotation_" k then r !! k else None.
Proof.
  unfold annotations. destruct (String.prefix "annotation_" k) eqn:Hk.
  - destruct (r !! k) as [v|] eqn:E.
    + now apply map_lookup_filter_Some_2.
    + apply map_lookup_filter_None_2. now left.
  - apply map_lookup_filter_None_2. right. intros v _. cbn. congruence.
Qed.

(** X10. [annotations] holds every field of the record whose name starts
    with [annotation_], with its value, and nothing else; it is empty exactly
    when the record has no such field. *)
Theorem annotations_spec (r : record) :
  (forall k v, annotations r !! k = Some v
     <-> String.prefix "annotation_" k = true /\ r !! k = Some v) /\
  (annotations r = ∅
     <-> forall k, String.prefix "annotation_" k = true -> r !! k = None).
Proof.
  split.
  - intros k v. rewrite annotations_lookup.
    destruct (String.prefix "annotation_" k); split; try tauto; easy.
  - split.
    + intros He k Hk. pose proof (annotations_lookup r k) as H.
      now rewrite He, Hk, lookup_empty in H.
    + intros Hno. apply map_eq. intros k.
      rewrite annotations_lookup, lookup_empty.
      destruct (String.prefix "annotation_" k) eqn:Hk; [now apply Hno|reflexivity].
Qed.

Lemma annotations_spec_witness :
  annotations Samples.annotated !! "annotation_1577836800"
    = Some (VStr "call first").
Proof.
  apply (proj1 (annotations_spec Samples.annotated)). split; reflexivity.
Defined.

Lemma annotations_unchanged (r r' : record) :
  (forall k, String.prefix "annotation_" k = true -> r' !! k = r !! k) ->
  annotations r' = annotations r.
Proof.
  intros H. apply map_eq. intros k. rewrite !annotations_lookup.
  destruct (String.prefix "annotation_" k) eqn:Hk; [now apply H|reflexivity].
Qed.

(** X11. Neither [copy_from] nor [associate_with] changes the annotations
    of the task. *)
Theorem annotations_kept {tz : local_zone} (r : record) (other : Upstream.Task) :
  annotations (exec (copy_from (Some other)) r) = annotations r /\
  annotations (exec (associate_with other) r) = annotations r.
Proof.
  split; apply annotations_unchanged; intros k Hk.
  - apply copy_from_lookup_other; intros ->; discriminate Hk.
  - rewrite associate_with_lookup.
    destruct (decide _) as [->|_]; [discriminate Hk|].
    destruct (decide _) as [->|_]; [|reflexivity].
    rewrite association_key_unfold in Hk. discriminate Hk.
Qed.

(** * Further properties of the factory *)

Lemma create_from_map_run {tz : local_zone} (kw : kwargs) (h : heap) (map : addr) (m : record) :
  kw_map kw = Some map -> h !! map = Some m ->
  create_from kw h = (Ok (length h), (h ++ [m])%list).
Proof.
  intros Hkw Hm. unfold create_from. rewrite Hkw.
  now erewrite bind_ok by (unfold deref; now rewrite Hm).
Qed.

Lemma at_addr_last {A} (h : heap) (d : record) (method : M record A) :
  at_addr (length h) method (h ++ [d])%list =
    ((method d).1, (h ++ [(method d).2])%list).
Proof.
  unfold at_addr. rewrite lookup_app_r by reflexivity.
  rewrite Nat.sub_diag. cbn [lookup list_lookup].
  destruct (method d) as [x d']. cbn [fst snd]. f_equal.
  now rewrite insert_app_r_alt, Nat.sub_diag by reflexivity.
Qed.

(** X12. [create_from(other=T)] for a task [T] returns a wrapper of a new
    record that is pending, has no identifier, is not yet associated with
    [T] nor stale for it, and is to be synchronised; the dictionaries that
    exist are untouched. *)
Theorem create_from_upstream_task {tz : local_zone} (kw : kwargs) (h : heap)
    (other : Upstream.Task) :
  kw_map kw = None -> kw_other kw = Some (Some other) ->
  exists r',
    create_from kw h = (Ok (length h), (h ++ [r'])%list) /\
    r' = exec (copy_from (Some other)) {[ "status" := VStr "pending" ]} /\
    status r' = Ok (VStr "pending") /\
    uid r' = VNone /\
    is_associated_with other r' = false /\
    stale other r' = false /\
    should_sync r' = Ok true.
Proof.
  intros Hm Ho. eexists. split; [exact (create_from_other kw h other Hm Ho)|].
  split; [reflexivity|].
  pose proof (copy_from_lookup_other other {[ "status" := VStr "pending" ]}) as Hk.
  assert (Hs : status (exec (copy_from (Some other)) {[ "status" := VStr "pending" ]})
               = Ok (VStr "pending")).
  { unfold status, getitem. now rewrite Hk by discriminate. }
  split; [exact Hs|]. split; [|split; [|split]].
  - unfold uid, get_or_None. now rewrite Hk by discriminate.
  - unfold is_associated_with.
    rewrite Hk by (rewrite association_key_unfold; cbn; discriminate).
    rewrite lookup_singleton_ne; [reflexivity|].
    rewrite association_key_unfold. cbn. discriminate.
  - unfold stale. now rewrite Hk by discriminate.
  - now rewrite (should_sync_by_status _ _ Hs).
Qed.

Lemma create_from_upstream_task_witness :
  exists r',
    create_from (tz := utc) {| kw_map := None; kw_other := Some (Some Samples.milk) |}
                [Samples.pending]
      = (Ok 1, [Samples.pending; r']) /\
    should_sync r' = Ok true.
Proof.
  destruct (create_from_upstream_task (tz := utc)
              {| kw_map := None; kw_other := Some (Some Samples.milk) |}
              [Samples.pending] Samples.milk eq_refl eq_refl)
    as (r' & Hrun & _ & _ & _ & _ & _ & Hsync).
  exists r'. split; [exact Hrun|exact Hsync].
Defined.

(** X13. [create_from(other=None)] fails with the [ValueError] of
    [copy_from], not with the [KeyError] of a missing argument, and no
    dictionary that exists is changed. *)
Theorem create_from_None_task {tz : local_zone} (kw : kwargs) (h : heap) :
  kw_map kw = None -> kw_other kw = Some None ->
  (create_from kw h).1 = Raise (ValueError "Cannot sync with nothing.") /\
  (forall a d, h !! a = Some d -> (create_from kw h).2 !! a = Some d).
Proof.
  intros Hm Ho. unfold create_from. rewrite Hm, Ho.
  erewrite bind_ok by reflexivity.
  erewrite bind_raise by (rewrite at_addr_last; reflexivity).
  split; [reflexivity|]. intros a d Ha. cbn [snd].
  now apply lookup_app_l_Some.
Qed.

Lemma create_from_None_task_witness :
  (create_from (tz := utc) {| kw_map := None; kw_other := Some None |} [Samples.pending]).1
    = Raise (ValueError "Cannot sync with nothing.").
Proof.
  apply (create_from_None_task (tz := utc) {| kw_map := None; kw_other := Some None |}
           [Samples.pending]); reflexivity.
Defined.

(** X14. The wrapper [create_from(map=M)] returns and [M] do not share their
    dictionary: whatever a method then writes through the wrapper, [M] is as
    it was, and whatever is written to [M], the record of the wrapper is as
    it was. *)
Theorem create_from_map_is_a_copy {tz : local_zone} (kw : kwargs) (h h' : heap) (map task : addr)
    (m : record) {A} (method : M record A) :
  kw_map kw = Some map -> h !! map = Some m ->
  create_from kw h = (Ok task, h') ->
  exec (at_addr task method) h' !! map = Some m /\
  exec (at_addr map method) h' !! task = Some m.
Proof.
  intros Hkw Hm Hrun. rewrite (create_from_map_run kw h map m Hkw Hm) in Hrun.
  injection Hrun as <- <-. pose proof (lookup_lt_Some _ _ _ Hm) as Hlt.
  split.
  - unfold exec. rewrite at_addr_last. cbn [snd]. now apply lookup_app_l_Some.
  - unfold exec, at_addr. rewrite (lookup_app_l_Some _ _ _ _ Hm).
    destruct (method m) as [x d']. cbn [snd].
    rewrite list_lookup_insert_ne by lia.
    rewrite lookup_app_r by reflexivity. now rewrite Nat.sub_diag.
Qed.

Lemma create_from_map_is_a_copy_witness :
  exec (at_addr 1 (associate_with Samples.milk))
       [Samples.pending; Samples.pending] !! 0 = Some Samples.pending /\
  exec (at_addr 0 (associate_with Samples.milk))
       [Samples.pending; Samples.pending] !! 1 = Some Samples.pending.
Proof.
  apply (create_from_map_is_a_copy (tz := utc)
           {| kw_map := Some 0; kw_other := None |}
           [Samples.pending] [Samples.pending; Samples.pending] 0 1
           Samples.pending (associate_with Samples.milk));
    reflexivity.
Defined.

(** * Further properties of the repository *)

Section SaveSteps.
Context {Store : Type} {tz : local_zone}.
Variable task_add : record -> Store -> res record * Store.
Variable task_update : record -> Store -> res unit * record * Store.
Variable task_done : record -> Store -> res record * Store.

Local Abbreviation create_or_update := (save_create_or_update task_add task_update).
Local Abbreviation mark_complete := (save_mark_complete task_done).
Local Abbreviation save := (save task_add task_update task_done).

(** The call the first step issues. *)
Local Abbreviation first_call st :=
  (if is_None (uid (_source st)) then Call_task_add (_source st)
   else Call_task_update (_source st)).

Lemma create_or_update_run (st : state) :
  create_or_update st =
    let issued := (calls st ++ [first_call st])%list in
    if is_None (uid (_source st)) then
      match task_add (_source st) (_db st) with
      | (Ok r, db') => (Ok tt, State r db' issued (log st))
      | (Raise e, db') => (Raise e, State (_source st) db' issued (log st))
      end
    else
      match task_update (_source st) (_db st) with
      | (x, task', db') => (x, State task' db' issued (log st))
      end.
Proof.
  destruct st as [src db cs lg]. cbn [_source _db calls log].
  unfold save_create_or_update, mbind, M_bind, get. cbn [_source].
  destruct (is_None (uid src)).
  - unfold db_task_add, set_source, modify. cbn [_source _db calls log].
    destruct (task_add src db) as [[r|e] db']; reflexivity.
  - unfold db_task_update. cbn [_source _db calls log].
    destruct (task_update src db) as [[x task'] db']. reflexivity.
Qed.

Lemma create_or_update_effect (st : state) :
  calls (exec create_or_update st) = (calls st ++ [first_call st])%list /\
  log (exec create_or_update st) = log st.
Proof.
  unfold exec. rewrite create_or_update_run. cbv zeta.
  destruct (is_None (uid (_source st))).
  - destruct (task_add _ _) as [[r|e] db']; now split.
  - destruct (task_update _ _) as [[x task'] db']; now split.
Qed.

Lemma save_run (st : state) :
  save st =
    match create_or_update st with
    | (Ok _, st1) => mark_complete st1
    | (Raise e, st1) => (Raise e, st1)
    end.
Proof. reflexivity. Qed.

(** X15. [save] talks to the store once or twice. The first call is a create
    with the entire record when the task has no identifier and an update with
    the record otherwise; a second call, if any, is the mark-complete. *)
Theorem save_calls (st : state) :
  exists rest,
    calls (exec save st) = (calls st ++ first_call st :: rest)%list /\
    (rest = [] \/ exists keys, rest = [Call_task_done keys]).
Proof.
  destruct (create_or_update_effect st) as [Hcalls _].
  unfold exec in *. rewrite save_run.
  destruct (create_or_update st) as [[[]|e] st1]; cbn [snd] in Hcalls.
  - rewrite mark_complete_run. cbv zeta.
    assert (Hcons : forall l, ((calls st ++ [first_call st]) ++ l
                               = calls st ++ first_call st :: l)%list)
      by (intros l; now rewrite <- app_assoc).
    destruct (is_pending (_source st1)) as [[|]|e];
      try (exists []; cbn [snd]; rewrite Hcalls; now split; [|left]).
    destruct (completed (_source st1)) as [[d|]|e];
      try (exists []; cbn [snd]; rewrite Hcalls; now split; [|left]).
    exists [Call_task_done (completion_keys (_source st1))].
    destruct (task_done _ _) as [[r|e] db']; cbn [snd calls];
      rewrite Hcalls, Hcons; (split; [reflexivity|right; now eexists]).
  - exists []. cbn [snd]. rewrite Hcalls. now split; [|left].
Qed.

(** X16. An exception of the store in the first step comes out of [save]
    as it is: no mark-complete is issued and nothing is logged. After a
    failed create the record of the wrapper is the one it was. *)
Theorem save_first_step_raises (st st1 : state) (e : exn) :
  create_or_update st = (Raise e, st1) ->
  save st = (Raise e, st1) /\
  calls st1 = (calls st ++ [first_call st])%list /\
  log st1 = log st /\
  (is_None (uid (_source st)) = true -> _source st1 = _source st).
Proof.
  intros Hstep. destruct (create_or_update_effect st) as [Hcalls Hlog].
  unfold exec in *. rewrite save_run, Hstep in *. cbn [snd] in *.
  split; [reflexivity|]. split; [exact Hcalls|]. split; [exact Hlog|].
  intros Hnew. rewrite create_or_update_run, Hnew in Hstep. cbv zeta in Hstep.
  destruct (task_add _ _) as [[r|e'] db']; [discriminate|].
  now injection Hstep as _ <-.
Qed.

Lemma save_created_run (st : state) (r : record) (db' : Store) :
  is_None (uid (_source st)) = true ->
  task_add (_source st) (_db st) = (Ok r, db') ->
  is_pending r = Ok false \/ (is_pending r = Ok true /\ completed r = Ok None) ->
  save st =
    (Ok tt, State r db' (calls st ++ [Call_task_add (_source st)])%list (log st)).
Proof.
  intros Hnew Hadd Hquiet.
  assert (Hstep : create_or_update st =
            (Ok tt, State r db' (calls st ++ [Call_task_add (_source st)])%list
                          (log st)))
    by (rewrite create_or_update_run, Hnew, Hadd; reflexivity).
  rewrite save_run, Hstep, mark_complete_run. cbv zeta. cbn [_source].
  now destruct Hquiet as [-> | [-> ->]].
Qed.

(** X17. For a task without an identifier, when the store creates it and
    the record the store returns is not pending or has no [end], [save]
    succeeds with the one call and the record of the wrapper is the record
    the store returned, the identifier the store assigned included. *)
Theorem save_created_record (st : state) (r : record) (db' : Store) :
  is_None (uid (_source st)) = true ->
  task_add (_source st) (_db st) = (Ok r, db') ->
  is_pending r = Ok false \/ (is_pending r = Ok true /\ completed r = Ok None) ->
  save st =
    (Ok tt, State r db' (calls st ++ [Call_task_add (_source st)])%list (log st)) /\
  uid (_source (exec save st)) = uid r.
Proof.
  intros Hnew Hadd Hquiet.
  pose proof (save_created_run st r db' Hnew Hadd Hquiet) as Hrun.
  split; [exact Hrun|]. unfold exec. now rewrite Hrun.
Qed.

(** X22. [delete] after the [save] that created the task asks the store to
    delete the identifier the store assigned: it reads the record [save]
    put in the wrapper, not the one the task had before. *)
Theorem delete_after_save (task_delete : value -> Store -> res unit * Store)
    (st : state) (r : record) (db' : Store) :
  is_None (uid (_source st)) = true ->
  task_add (_source st) (_db st) = (Ok r, db') ->
  is_pending r = Ok false \/ (is_pending r = Ok true /\ completed r = Ok None) ->
  Deletion.delete task_delete (_source (exec save st)) (_db (exec save st))
    = task_delete (uid r) db'.
Proof.
  intros Hnew Hadd Hquiet. unfold exec.
  now rewrite (save_created_run st r db' Hnew Hadd Hquiet).
Qed.

(** X18. The check for the completion transition runs on the record once it
    is persisted: when the record has no status, or is pending with an
    [end] that is not a number, [save] raises the error of the accessor
    after the create or update has gone to the store, and issues nothing
    more. *)
Theorem save_check_raises (st st1 : state) (e : exn) :
  create_or_update st = (Ok tt, st1) ->
  is_pending (_source st1) = Raise e \/
    (is_pending (_source st1) = Ok true /\ completed (_source st1) = Raise e) ->
  save st = (Raise e, st1) /\
  calls st1 = (calls st ++ [first_call st])%list.
Proof.
  intros Hstep Hcheck. destruct (create_or_update_effect st) as [Hcalls _].
  unfold exec in Hcalls. rewrite Hstep in Hcalls. split; [|exact Hcalls].
  rewrite save_run, Hstep, mark_complete_run. cbv zeta.
  now destruct Hcheck as [-> | [-> ->]].
Qed.

(** X19. [save] logs the completion exactly when the transition fires: one
    entry, for the record as persisted, when the task is pending and its
    [completed] is not [None], and none otherwise. *)
Theorem save_log (st st1 : state) :
  create_or_update st = (Ok tt, st1) ->
  let src := _source st1 in
  let fires := is_pending src = Ok true /\
               exists d, completed src = Ok (Some d) in
  (fires -> log (exec save st) = (log st ++ [Marking_as_complete src])%list) /\
  (~ fires -> log (exec save st) = log st).
Proof.
  intros Hstep src fires. destruct (create_or_update_effect st) as [_ Hlog].
  unfold exec in *. rewrite Hstep in Hlog. cbn [snd] in Hlog.
  rewrite save_run, Hstep, mark_complete_run. cbv zeta. fold src. split.
  - intros [Hp [d Hc]]. rewrite Hp, Hc.
    destruct (task_done _ _) as [[r|e] db']; cbn [snd log]; now rewrite Hlog.
  - intros Hn.
    destruct (is_pending src) as [[|]|e] eqn:Hp; try exact Hlog.
    destruct (completed src) as [[d|]|e] eqn:Hc; try exact Hlog.
    exfalso. apply Hn. split; [reflexivity|now exists d].
Qed.

(** X20. When the mark-complete raises, the exception comes out of [save]
    and the record of the wrapper stays the persisted one: the completion
    is logged and the call is issued, but nothing replaces the record. *)
Theorem save_mark_complete_raises (st st1 : state) (d : datetime) (e : exn)
    (db2 : Store) :
  create_or_update st = (Ok tt, st1) ->
  is_pending (_source st1) = Ok true ->
  completed (_source st1) = Ok (Some d) ->
  task_done (completion_keys (_source st1)) (_db st1) = (Raise e, db2) ->
  save st =
    (Raise e,
     State (_source st1) db2
           (calls st1 ++ [Call_task_done (completion_keys (_source st1))])%list
           (log st1 ++ [Marking_as_complete (_source st1)])%list).
Proof.
  intros Hstep Hp Hc Hdone.
  rewrite save_run, Hstep, mark_complete_run. cbv zeta.
  now rewrite Hp, Hc, Hdone.
Qed.

End SaveSteps.

(** X21. When [completed] of a record is a date, the fields handed to the
    mark-complete hold the [end] of the record, which is not [None] and
    reads as an epoch second whose local time is that date; they hold the
    [uuid] exactly when the record has one. *)
Theorem completion_keys_of_completed {tz : local_zone} (src : record)
    (d : datetime) :
  completed src = Ok (Some d) ->
  (exists v, completion_keys src !! "end" = Some v /\ v <> VNone /\
             exists n, int v = Ok n /\ fromtimestamp n = Ok d) /\
  completion_keys src !! "uuid" = src !! "uuid".
Proof.
  intros Hc. split; [|now rewrite completion_keys_lookup].
  rewrite completion_keys_lookup. cbn.
  unfold completed, get_or_None, __parse_date in Hc.
  destruct (src !! "end") as [v|]; [|discriminate Hc]. cbn in Hc.
  exists v. split; [reflexivity|].
  assert (Hv : v <> VNone) by (intros ->; discriminate Hc).
  split; [exact Hv|].
  destruct (is_None v) eqn:Hn; [now destruct v|].
  destruct (int v) as [n|e']; [|discriminate Hc]. cbn in Hc.
  exists n. split; [reflexivity|].
  destruct (fromtimestamp n) as [d'|e']; [|discriminate Hc].
  cbn in Hc. now injection Hc as ->.
Qed.

Lemma completion_keys_of_completed_witness :
  completion_keys Samples.saved_done !! "uuid" = Some (VStr "u-1").
Proof.
  etransitivity.
  - apply (completion_keys_of_completed (tz := utc) Samples.saved_done
             (Datetime 1577840400 0 None)). reflexivity.
  - reflexivity.
Defined.

Lemma save_first_step_raises_witness :
  exec (TaskWarriorTaskRepository.save (tz := utc)
          LockedStore.task_add LockedStore.task_update LockedStore.task_done)
       (MemoryStore.start Samples.pending)
    = State Samples.pending [] [Call_task_add Samples.pending] [].
Proof.
  unfold exec.
  rewrite (proj1 (save_first_step_raises (tz := utc)
                    LockedStore.task_add LockedStore.task_update
                    LockedStore.task_done
                    (MemoryStore.start Samples.pending)
                    (State Samples.pending [] [Call_task_add Samples.pending] [])
                    LockedStore.locked eq_refl)).
  reflexivity.
Defined.

Lemma save_created_record_witness :
  uid (_source (exec (TaskWarriorTaskRepository.save (tz := utc)
                        MemoryStore.task_add MemoryStore.task_update
                        MemoryStore.task_done)
                     (MemoryStore.start Samples.pending)))
    = VStr "local-1".
Proof.
  etransitivity.
  - apply (save_created_record (tz := utc)
             MemoryStore.task_add MemoryStore.task_update MemoryStore.task_done
             (MemoryStore.start Samples.pending)
             (<["uuid" := VStr "local-1"]>
                (<["status" := VStr "pending"]> Samples.pending))
             [<["uuid" := VStr "local-1"]>
                (<["status" := VStr "pending"]> Samples.pending)]).
    + reflexivity.
    + reflexivity.
    + right. split; reflexivity.
  - reflexivity.
Defined.

Lemma save_check_raises_witness :
  (TaskWarriorTaskRepository.save (tz := utc)
     MemoryStore.task_add MemoryStore.task_update MemoryStore.task_done
     (MemoryStore.start Samples.saved_bad_end)).1
    = Raise (ValueError "invalid literal for int() with base 10") /\
  (TaskWarriorTaskRepository.save (tz := utc)
     MemoryStore.task_add MemoryStore.task_update MemoryStore.task_done
     (MemoryStore.start Samples.saved_no_status)).1
    = Raise (KeyError "status").
Proof.
  split.
  - rewrite (proj1 (save_check_raises (tz := utc)
                      MemoryStore.task_add MemoryStore.task_update
                      MemoryStore.task_done
                      (MemoryStore.start Samples.saved_bad_end)
                      (State (delete "id" Samples.saved_bad_end)
                             [Samples.saved_bad_end]
                             [Call_task_update Samples.saved_bad_end] [])
                      (ValueError "invalid literal for int() with base 10")
                      eq_refl
                      (or_intror (conj eq_refl eq_refl)))).
    reflexivity.
  - rewrite (proj1 (save_check_raises (tz := utc)
                      MemoryStore.task_add MemoryStore.task_update
                      MemoryStore.task_done
                      (MemoryStore.start Samples.saved_no_status)
                      (State (delete "id" Samples.saved_no_status)
                             [Samples.saved_no_status]
                             [Call_task_update Samples.saved_no_status] [])
                      (KeyError "status")
                      eq_refl
                      (or_introl eq_refl))).
    reflexivity.
Defined.

Lemma save_log_witness :
  log Samples.saved_done_after_save
    = [Marking_as_complete (delete "id" Samples.saved_done)] /\
  log (exec MemoryStore.save (MemoryStore.start Samples.saved_completed)) = [].
Proof.
  split.
  - apply (proj1 (save_log (tz := utc)
             MemoryStore.task_add MemoryStore.task_update MemoryStore.task_done
             (MemoryStore.start Samples.saved_done)
             (State (delete "id" Samples.saved_done) [Samples.saved_done]
                    [Call_task_update Samples.saved_done] [])
             eq_refl)).
    split; [reflexivity|]. exists (Datetime 1577840400 0 None). reflexivity.
  - apply (proj2 (save_log (tz := utc)
             MemoryStore.task_add MemoryStore.task_update MemoryStore.task_done
             (MemoryStore.start Samples.saved_completed)
             (State (delete "id" Samples.saved_completed) [Samples.saved_completed]
                    [Call_task_update Samples.saved_completed] [])
             eq_refl)).
    intros [Hp _]. discriminate Hp.
Defined.

Lemma save_mark_complete_raises_witness :
  _source (exec (TaskWarriorTaskRepository.save (tz := utc)
                   MemoryStore.task_add MemoryStore.task_update
                   LockedStore.task_done)
                (MemoryStore.start Samples.saved_done))
    = delete "id" Samples.saved_done.
Proof.
  unfold exec.
  rewrite (save_mark_complete_raises (tz := utc)
             MemoryStore.task_add MemoryStore.task_update LockedStore.task_done
             (MemoryStore.start Samples.saved_done)
             (State (delete "id" Samples.saved_done) [Samples.saved_done]
                    [Call_task_update Samples.saved_done] [])
             (Datetime 1577840400 0 None) LockedStore.locked
             [Samples.saved_done] eq_refl eq_refl eq_refl eq_refl).
  reflexivity.
Defined.

Lemma delete_after_save_witness :
  Deletion.delete MemoryStore.task_delete
    (_source (exec (TaskWarriorTaskRepository.save (tz := utc)
                      MemoryStore.task_add MemoryStore.task_update
                      MemoryStore.task_done)
                   (MemoryStore.start Samples.pending)))
    (_db (exec (TaskWarriorTaskRepository.save (tz := utc)
                  MemoryStore.task_add MemoryStore.task_update
                  MemoryStore.task_done)
               (MemoryStore.start Samples.pending)))
  = (Ok tt, []).
Proof.
  etransitivity.
  - apply (delete_after_save (tz := utc)
             MemoryStore.task_add MemoryStore.task_update MemoryStore.task_done
             MemoryStore.task_delete
             (MemoryStore.start Samples.pending)
             (<["uuid" := VStr "local-1"]>
                (<["status" := VStr "pending"]> Samples.pending))
             [<["uuid" := VStr "local-1"]>
                (<["status" := VStr "pending"]> Samples.pending)]).
    + reflexivity.
    + reflexivity.
    + right. split; reflexivity.
  - reflexivity.
Defined.

(** ** [all] *)

Lemma for_each_alloc (l : list record) (h : heap) :
  for_each alloc l h = (Ok (seq (length h) (length l)), (h ++ l)%list).
Proof.
  revert h. induction l as [|d l IH]; intros h.
  - cbn. now rewrite app_nil_r.
  - cbn [for_each]. erewrite bind_ok by reflexivity.
    erewrite bind_ok by apply IH.
    rewrite length_app, Nat.add_1_r, <- app_assoc. reflexivity.
Qed.

Lemma for_each_alloc_group (groups : list (string * list record)) (h : heap) :
  exists gs,
    for_each alloc_group groups h = (Ok gs, (h ++ concat groups.*2)%list) /\
    concat gs.*2 = seq (length h) (length (concat groups.*2)).
Proof.
  revert h. induction groups as [|g groups IH]; intros h.
  - exists []. cbn. now rewrite app_nil_r.
  - destruct (IH (h ++ g.2)%list) as (gs & Hrun & Hflat).
    exists ((g.1, seq (length h) (length g.2)) :: gs). split.
    + cbn [for_each]. erewrite bind_ok.
      2:{ unfold alloc_group. erewrite bind_ok by apply for_each_alloc.
          reflexivity. }
      erewrite bind_ok by exact Hrun. cbn. now rewrite <- app_assoc.
    + cbn. rewrite Hflat, !length_app. now rewrite seq_app.
Qed.

Lemma loaded_at_their_addresses (h : heap) (l : list record) :
  Forall2 (fun a d => (h ++ l)%list !! a = Some d) (seq (length h) (length l)) l.
Proof.
  revert h. induction l as [|d l IH]; intros h; [constructor|].
  cbn [length seq]. constructor.
  - now apply list_lookup_middle.
  - specialize (IH (h ++ [d])%list).
    rewrite length_app, Nat.add_1_r, <- app_assoc in IH. exact IH.
Qed.

Lemma for_each_create_from {tz : local_zone} (addrs : list addr) (ds : list record) (h : heap) :
  Forall2 (fun a d => h !! a = Some d) addrs ds ->
  for_each (fun t => create_from {| kw_map := Some t; kw_other := None |})
           addrs h
    = (Ok (seq (length h) (length addrs)), (h ++ ds)%list).
Proof.
  intros H. revert h ds H. induction addrs as [|a addrs IH]; intros h ds H.
  - apply Forall2_nil_inv_l in H as ->. cbn. now rewrite app_nil_r.
  - apply Forall2_cons_inv_l in H as (d & ds' & Hd & Hrest & ->).
    cbn [for_each].
    erewrite bind_ok by (now apply (create_from_map_run _ h a d)).
    erewrite bind_ok.
    2:{ apply IH. eapply Forall2_impl; [exact Hrest|].
        intros a' d' Ha'. now apply lookup_app_l_Some. }
    rewrite length_app, Nat.add_1_r, <- app_assoc. reflexivity.
Qed.

Section All.
Context {Store : Type} {tz : local_zone}.
Variable load_tasks : Store -> res (list (string * list record)) * Store.

Local Abbreviation all :=
  (TaskWarriorTaskRepository.all TaskWarriorTaskFactory.create_from load_tasks).

Lemma all_run (h : heap) (db db' : Store)
    (groups : list (string * list record)) :
  load_tasks db = (Ok groups, db') ->
  let flat := concat groups.*2 in
  all (h, db) =
    (Ok (seq (length h + length flat) (length flat)),
     ((h ++ flat) ++ flat, db')%list).
Proof.
  intros Hload flat.
  destruct (for_each_alloc_group groups h) as (gs & Hgs & Hflat).
  unfold TaskWarriorTaskRepository.all. erewrite bind_ok.
  2:{ unfold db_load_tasks. cbn [fst snd]. rewrite Hload, Hgs. reflexivity. }
  cbv zeta. unfold on_heap. cbn [fst snd]. rewrite Hflat. fold flat.
  rewrite (for_each_create_from _ flat) by apply loaded_at_their_addresses.
  now rewrite length_app, length_seq.
Qed.

(** X23. [all] returns one wrapper for each record the store loads, in the
    order of the store's groups and of the records in them. The wrapper of
    a record holds a dictionary with the content of that record which is a
    new object, apart from every other wrapper's and from the loaded
    records; no dictionary that exists is changed. *)
Theorem all_wrappers (h : heap) (db db' : Store)
    (groups : list (string * list record)) :
  load_tasks db = (Ok groups, db') ->
  let flat := concat groups.*2 in
  exists ws h',
    all (h, db) = (Ok ws, (h', db')) /\
    length ws = length flat /\
    NoDup ws /\
    (forall i d, flat !! i = Some d ->
       exists w, ws !! i = Some w /\ h' !! w = Some d /\
                 length h + length flat <= w) /\
    (forall a d, h !! a = Some d -> h' !! a = Some d).
Proof.
  intros Hload flat. eexists _, _. split; [exact (all_run h db db' groups Hload)|].
  fold flat. split; [apply length_seq|]. split; [apply NoDup_seq|]. split.
  - intros i d Hi. pose proof (lookup_lt_Some _ _ _ Hi) as Hlt.
    exists (length h + length flat + i). split; [|split; [|lia]].
    + now apply lookup_seq.
    + rewrite lookup_app_r by (rewrite length_app; lia).
      rewrite length_app.
      now replace (length h + length flat + i - (length h + length flat)) with i by lia.
  - intros a d Ha. rewrite <- app_assoc. now apply lookup_app_l_Some.
Qed.

(** X24. When the store fails to load, [all] raises its exception and makes
    no wrapper and no dictionary. *)
Theorem all_load_raises (h : heap) (db db' : Store) (e : exn) :
  load_tasks db = (Raise e, db') ->
  all (h, db) = (Raise e, (h, db')).
Proof.
  intros Hload. unfold TaskWarriorTaskRepository.all.
  erewrite bind_raise; [reflexivity|].
  unfold db_load_tasks. cbn [fst snd]. now rewrite Hload.
Qed.

End All.

Lemma all_wrappers_witness :
  exists ws h',
    MemoryStore.all ([], [Samples.saved_completed; Samples.pending])
      = (Ok ws, (h', [Samples.saved_completed; Samples.pending])) /\
    length ws = 2.
Proof.
  destruct (all_wrappers (tz := utc) MemoryStore.load_tasks []
              [Samples.saved_completed; Samples.pending]
              [Samples.saved_completed; Samples.pending]
              [("pending", [Samples.pending]);
               ("completed", [Samples.saved_completed])]
              eq_refl)
    as (ws & h' & Hrun & Hlen & _).
  exists ws, h'. split; [exact Hrun|exact Hlen].
Defined.

Lemma all_load_raises_witness :
  TaskWarriorTaskRepository.all (TaskWarriorTaskFactory.create_from (tz := utc))
    LockedStore.load_tasks ([Samples.pending], [Samples.pending])
  = (Raise LockedStore.locked, ([Samples.pending], [Samples.pending])).
Proof.
  apply (all_load_raises (tz := utc) LockedStore.load_tasks [Samples.pending]
           [Samples.pending] [Samples.pending] LockedStore.locked).
  reflexivity.
Defined.

(** * How the methods of the wrapper compose *)

(** X25. A source task without a subject takes the description away: after
    [copy_from] the field [description] is absent and [subject], which needs
    it, raises [KeyError]. *)
Theorem copy_from_without_subject {tz : local_zone} (r : record) (other : Upstream.Task) :
  Upstream.subject other = None ->
  subject (exec (copy_from (Some other)) r) = Raise (KeyError "description").
Proof.
  intros Hs. destruct (copy_from_lookup other r) as (_ & Hd & _).
  cbv zeta in Hd. unfold subject, getitem. now rewrite Hd, Hs.
Qed.

Lemma copy_from_without_subject_witness :
  subject (exec (copy_from (tz := utc) (Some Samples.bare)) Samples.pending)
    = Raise (KeyError "description").
Proof.
  apply (copy_from_without_subject Samples.pending Samples.bare). reflexivity.
Defined.

(** X26. [copy_from] and [associate_with] write different fields, so the
    order in which a task is copied from and associated with does not
    matter for the record. *)
Theorem copy_from_associate_with_commute {tz : local_zone} (r : record) (other o : Upstream.Task) :
  exec (copy_from (Some other)) (exec (associate_with o) r) =
    exec (associate_with o) (exec (copy_from (Some other)) r).
Proof.
  apply map_eq. intros k.
  destruct (copy_from_lookup other (exec (associate_with o) r))
    as (Hp & Hs & Hd & He).
  destruct (copy_from_lookup other r) as (Hp' & Hs' & Hd' & He').
  cbv zeta in *.
  assert (Hkey : forall f, f = "project" \/ f = "description" \/ f = "due"
                           \/ f = "end" ->
                 f <> __UDA_ETAG /\ f <> _association_key_for o).
  { intros f Hf. rewrite association_key_unfold.
    destruct Hf as [-> | [-> | [-> | ->]]]; split; cbn; discriminate. }
  assert (Hfield : forall f, f = "project" \/ f = "description" \/ f = "due"
                             \/ f = "end" ->
            exec (associate_with o) (exec (copy_from (Some other)) r) !! f
              = exec (copy_from (Some other)) r !! f).
  { intros f Hf. destruct (Hkey f Hf) as [H1 H2].
    rewrite associate_with_lookup.
    now rewrite decide_False, decide_False by assumption. }
  destruct (decide (k = "project")) as [->|?].
  { rewrite Hfield by tauto. congruence. }
  destruct (decide (k = "description")) as [->|?].
  { rewrite Hfield by tauto. congruence. }
  destruct (decide (k = "due")) as [->|?].
  { rewrite Hfield by tauto. congruence. }
  destruct (decide (k = "end")) as [->|?].
  { rewrite Hfield by tauto. congruence. }
  rewrite copy_from_lookup_other by assumption.
  rewrite !associate_with_lookup.
  now rewrite copy_from_lookup_other by assumption.
Qed.
